(** * Vybe backend: join codes, slugs and the YouTube Music header bridge

    A shallow embedding of [backend/app/services/code_service.py],
    [backend/app/services/utils_service.py] and
    [backend/app/routers/ytm_router.py], with the properties of the design
    document stated over it.

    Python text is modelled by [string], one [ascii] per code point, so the
    embedding covers text over U+0000..U+00FF.  Python's dynamic values are
    the type [pyval] (the values JSON can carry), a raised exception is the
    second constructor of [outcome], and a [dict] keyed by text is a
    [gmap string _]: the code never observes the order of a dict's keys
    except where the comments say so. *)

From Stdlib Require Import ZArith Ascii String List Lia.
From stdpp Require Import gmap strings list fin_maps pretty.

#[local] Set Warnings "-register-all".
#[local] Open Scope string_scope.
#[local] Open Scope Z_scope.

(* ===================================================================== *)
(** * Python values, exceptions and the operations the code uses on them  *)
(* ===================================================================== *)

Module Py.

(** Exception classes the modelled code can meet.  All of them derive from
    [Exception], so a bare [except Exception] catches every one. *)
Inductive exn :=
| HTTPException (status_code : Z) (detail : string)
| OSError (strerror : string)
| JSONDecodeError
| AttributeError
| TypeError
| KeyError
| IndexError
| ClientError (message : string)
| YTMusicUserError (message : string).

Inductive outcome (A : Type) :=
| Returns (a : A)
| Raises (e : exn).
Arguments Returns {A} a.
Arguments Raises {A} e.

#[global] Instance outcome_ret : MRet outcome := λ A a, Returns a.
#[global] Instance outcome_bind : MBind outcome := λ A B k c,
  match c with
  | Returns a => k a
  | Raises e => Raises e
  end.

(** [try: c  except Exception as e: h e] *)
Definition try_except {A} (c : outcome A) (h : exn → outcome A) : outcome A :=
  match c with
  | Returns a => Returns a
  | Raises e => h e
  end.

(** [str(e)] for an exception object. *)
Definition exn_str (e : exn) : string :=
  match e with
  | HTTPException _ d => d
  | OSError m => m
  | ClientError m => m
  | YTMusicUserError m => m
  | JSONDecodeError => "JSONDecodeError"
  | AttributeError => "AttributeError"
  | TypeError => "TypeError"
  | KeyError => "KeyError"
  | IndexError => "IndexError"
  end.

Inductive pyval :=
| PNone
| PBool (b : bool)
| PInt (n : Z)
| PStr (s : string)
| PList (l : list pyval)
| PDict (d : gmap string pyval).

(** Truth value testing: [if v], [not v], [v or w]. *)
Definition truthy (v : pyval) : bool :=
  match v with
  | PNone => false
  | PBool b => b
  | PInt n => negb (n =? 0)
  | PStr s => negb (String.eqb s "")
  | PList l => negb (bool_decide (l = []))
  | PDict d => negb (bool_decide (d = ∅))
  end.

Definition py_or (v w : pyval) : pyval := if truthy v then v else w.

(** [isinstance(v, dict)] and [isinstance(v, list)]. *)
Definition is_dict (v : pyval) : bool :=
  match v with PDict _ => true | _ => false end.
Definition is_list (v : pyval) : bool :=
  match v with PList _ => true | _ => false end.

(** [v.get(key, dflt)]: only a dict has the method. *)
Definition get (v : pyval) (key : string) (dflt : pyval) : outcome pyval :=
  match v with
  | PDict d => Returns (default dflt (d !! key))
  | _ => Raises AttributeError
  end.

(** The one-character strings of a text, as iteration and indexing give
    them. *)
Definition chars (s : string) : list pyval :=
  (λ c, PStr (String c EmptyString)) <$> String.list_ascii_of_string s.

(** [for x in v]: the items a value yields.  A dict yields its keys; the
    model lists them in the map's own order, not in insertion order. *)
Definition iter (v : pyval) : outcome (list pyval) :=
  match v with
  | PList l => Returns l
  | PStr s => Returns (chars s)
  | PDict d => Returns (PStr <$> (map_to_list d).*1)
  | _ => Raises TypeError
  end.

(** [v[0]] *)
Definition index0 (v : pyval) : outcome pyval :=
  match v with
  | PList (x :: _) => Returns x
  | PList [] => Raises IndexError
  | PStr s =>
      match chars s with
      | x :: _ => Returns x
      | [] => Raises IndexError
      end
  | PDict _ => Raises KeyError
  | _ => Raises TypeError
  end.

(** [l[:n]] on a list, for any integer [n]. *)
Definition slice_to (l : list pyval) (n : Z) : list pyval :=
  if 0 <=? n then take (Z.to_nat n) l
  else take (length l - Z.to_nat (- n))%nat l.

(** [ord(c)] *)
Definition ord (c : ascii) : N := N_of_ascii c.

(** ["sep".join(parts)] *)
Definition join (sep : string) (parts : list string) : string :=
  String.concat sep parts.

End Py.

Import Py.

(* ===================================================================== *)
(** * [app/services/utils_service.py]                                     *)
(* ===================================================================== *)

Module UtilsService.

(** [str.isspace] on one code point below U+0100. *)
Definition is_space (c : ascii) : bool :=
  let n := ord c in
  ((9 <=? n) && (n <=? 13) || (28 <=? n) && (n <=? 32)
   || (n =? 133) || (n =? 160))%N.

(** [str.lower] on one code point below U+0100. *)
Definition lower_char (c : ascii) : ascii :=
  let n := ord c in
  if ((65 <=? n) && (n <=? 90)
      || (192 <=? n) && (n <=? 222) && negb (n =? 215))%N
  then ascii_of_N (n + 32) else c.

Fixpoint lower (s : string) : string :=
  match s with
  | EmptyString => EmptyString
  | String c r => String (lower_char c) (lower r)
  end.

Fixpoint lstrip (p : ascii → bool) (s : string) : string :=
  match s with
  | EmptyString => EmptyString
  | String c r => if p c then lstrip p r else s
  end.

Fixpoint rstrip (p : ascii → bool) (s : string) : string :=
  match s with
  | EmptyString => EmptyString
  | String c r =>
      match rstrip p r with
      | EmptyString => if p c then EmptyString else String c EmptyString
      | r' => String c r'
      end
  end.

(** [s.strip()] with a predicate for the characters removed. *)
Definition strip (p : ascii → bool) (s : string) : string :=
  rstrip p (lstrip p s).

(** The class [[a-z0-9]], whose complement [_slug_re] matches. *)
Definition is_slug_char (c : ascii) : bool :=
  let n := ord c in
  ((97 <=? n) && (n <=? 122) || (48 <=? n) && (n <=? 57))%N.

(** [_slug_re.sub("-", s)] for [_slug_re = re.compile(r"[^a-z0-9]+")]:
    every maximal run of characters outside the class becomes one dash.
    [in_run] tells that the previous character was already replaced. *)
Fixpoint _slug_re_sub (in_run : bool) (s : string) : string :=
  match s with
  | EmptyString => EmptyString
  | String c r =>
      if is_slug_char c then String c (_slug_re_sub false r)
      else if in_run then _slug_re_sub true r
      else String "-" (_slug_re_sub true r)
  end.

Definition is_dash (c : ascii) : bool := (ord c =? 45)%N.

Definition slugify (text : string) : string :=
  let s := lower (strip is_space text) in
  let s := strip is_dash (_slug_re_sub false s) in
  if String.eqb s "" then "n-a" else s.

(** Every character of [s] satisfies [p]. *)
Fixpoint all_chars (p : ascii → bool) (s : string) : bool :=
  match s with
  | EmptyString => true
  | String c r => p c && all_chars p r
  end.

(** The characters a slug is made of. *)
Definition is_slug_or_dash (c : ascii) : bool := is_slug_char c || is_dash c.

End UtilsService.

(* ===================================================================== *)
(** * [app/services/code_service.py]                                      *)
(* ===================================================================== *)

Module CodeService.

Definition BASE_ALPHABET := "23456789ABCDEFGHJKLMNPQRSTUVWXYZ".
Definition SPECIALS := "!@#$%&*?".
Definition DEFAULT_ALPHABET := BASE_ALPHABET +:+ SPECIALS.

(** The operating system's entropy source, as the stream of raw draws it
    will hand out.  [secrets.choice] consumes one draw. *)
Definition entropy := nat → nat.

Definition draw (g : entropy) : nat * entropy := (g 0%nat, λ i, g (S i)).

(** The characters of a text, in order. *)
Definition letters (s : string) : list ascii := String.list_ascii_of_string s.

(** [secrets.choice(seq)]: a uniformly drawn element, [IndexError] on an
    empty sequence. *)
Definition choice (seq : string) (g : entropy) : outcome ascii * entropy :=
  match letters seq with
  | [] => (Raises IndexError, g)
  | c :: cs =>
      let '(r, g') := draw g in
      (Returns (nth (r mod length (c :: cs)) (c :: cs) c), g')
  end.

(** The generator expression [secrets.choice(alphabet) for _ in range(k)],
    consumed by ["".join]. *)
Fixpoint choices (k : nat) (alphabet : string) (g : entropy)
  : outcome string * entropy :=
  match k with
  | O => (Returns EmptyString, g)
  | S k' =>
      match choice alphabet g with
      | (Raises e, g') => (Raises e, g')
      | (Returns c, g') =>
          match choices k' alphabet g' with
          | (Raises e, g'') => (Raises e, g'')
          | (Returns s, g'') => (Returns (String c s), g'')
          end
      end
  end.

(** [range(length)] is empty for a negative [length]. *)
Definition generate_code (length : Z) (alphabet : string) (g : entropy)
  : outcome string * entropy :=
  choices (Z.to_nat length) alphabet g.

End CodeService.

(* ===================================================================== *)
(** * [app/config.py] and [app/routers/code_router.py]                    *)
(* ===================================================================== *)

Module Config.

Record Settings := {
  api_name : string;
  api_version : string;
  cors_origins : list string;
  code_length : Z;
  code_alphabet : string;
  max_generate : Z;
  ytm_client_token : string;
}.

(** The defaults of the class, before any [APP_] environment override. *)
Definition settings : Settings := {|
  api_name := "Backend Service";
  api_version := "1.0.0";
  cors_origins :=
    ["http://localhost:5173"; "http://localhost:3000"; "chrome-extension://*"];
  code_length := 4;
  code_alphabet := "23456789ABCDEFGHJKLMNPQRSTUVWXYZ!@#$%&*?";
  max_generate := 100;
  ytm_client_token := "dev-token";
|}.

End Config.

Module CodeRouter.
Import Config CodeService.

(** [cfg.code_alphabet or DEFAULT_ALPHABET] *)
Definition alphabet_of (cfg : Settings) : string :=
  if String.eqb (code_alphabet cfg) "" then DEFAULT_ALPHABET
  else code_alphabet cfg.

Definition get_one_code (cfg : Settings) (g : entropy)
  : outcome pyval * entropy :=
  match generate_code (code_length cfg) (alphabet_of cfg) g with
  | (Returns code, g') => (Returns (PDict {[ "code" := PStr code ]}), g')
  | (Raises e, g') => (Raises e, g')
  end.

End CodeRouter.

(* ===================================================================== *)
(** * [app/routers/ytm_router.py]                                         *)
(* ===================================================================== *)

Module YtmRouter.
Import Config.

(** ** The request body of [/ytm/ingest] *)

Record HeaderIngest := {
  url : string;
  time : string;
  headers : gmap string string;
}.

(** [payload.dict()] *)
Definition HeaderIngest_dict (payload : HeaderIngest) : pyval :=
  PDict (<["url" := PStr (url payload)]>
        (<["time" := PStr (time payload)]>
        (<["headers" := PDict (PStr <$> headers payload)]> ∅))).

(** ** The storage medium under [HEADERS_FILE]

    What the router can observe of the file system is the state of one
    path, [data/headers_dev.json], and of the directory above it.  An
    [Unreadable] entry exists, but [open] refuses it in every mode and
    [os.remove] refuses it too (a directory at that path, say); a [locked]
    medium refuses every change.  A write can also fail after the file has
    been opened and truncated (a quota, a full disk): on a medium with
    [quota = Some k] the first [k] characters of a text reach the file and
    a longer text then fails the write, leaving that prefix behind.  A
    file the process could write it can read back. *)

Inductive node :=
| Absent
| Unreadable
| Regular (text : string).

Inductive tree :=
| NoDir
| Dir (e : node).

Record storage := {
  locked : bool;
  strerror : string;
  data_dir : tree;
  quota : option nat;
}.

Definition entry (st : storage) : node :=
  match data_dir st with
  | NoDir => Absent
  | Dir e => e
  end.

Definition with_dir (t : tree) (st : storage) : storage :=
  {| locked := locked st; strerror := strerror st; data_dir := t;
     quota := quota st |}.

(** ** The third-party client

    [ytmusicapi] is outside the repository.  A constructed [YTMusic] object
    is the three calls the router makes on it, each with the outcome the
    network gives it. *)

Record ytmusic := {
  yt_get_history : outcome pyval;
  yt_get_library_playlists : outcome pyval;
  yt_search : string → string → Z → outcome pyval;
}.

(** What the router takes from Python's library and from [ytmusicapi].
    Every [pyval] can be serialized, so [json_dump] is total.  [setup] and
    the constructor [YTMusic] return or raise: [setup] refuses a header
    text it finds incomplete, and the constructor can fail on the handle
    it is given. *)
Record platform := {
  (** the text [json.dump(data, f, indent=2)] writes *)
  json_dump : pyval → string;
  (** [json.load(f)] on a file holding that text *)
  json_load : string → outcome pyval;
  (** [str(v)], as an f-string applies it to a value that is not text *)
  py_str : pyval → string;
  (** [ytmusicapi.setup(headers_raw=raw)] *)
  setup : string → outcome string;
  (** [YTMusic(auth)] *)
  YTMusic : string → outcome ytmusic;
}.

(** ** Process state: the medium and the single slot of [lru_cache] *)

Record world := {
  disk : storage;
  lru : option (option string);
}.

Definition with_disk (st : storage) (w : world) : world :=
  {| disk := st; lru := lru w |}.
Definition with_lru (c : option (option string)) (w : world) : world :=
  {| disk := disk w; lru := c |}.

(** A handler is a computation over the process state that returns or
    raises; what it changed before raising stays changed. *)
Definition M (A : Type) : Type := world → outcome A * world.

#[global] Instance M_ret : MRet M := λ A a w, (Returns a, w).
#[global] Instance M_bind : MBind M := λ A B k c w,
  match c w with
  | (Returns a, w') => k a w'
  | (Raises e, w') => (Raises e, w')
  end.

Definition lift {A} (c : outcome A) : M A := λ w, (c, w).
Definition raise {A} (e : exn) : M A := λ w, (Raises e, w).

(** [try: c  except Exception as e: h e] *)
Definition try_exceptM {A} (c : M A) (h : exn → M A) : M A := λ w,
  match c w with
  | (Returns a, w') => (Returns a, w')
  | (Raises e, w') => h e w'
  end.

(** ** File primitives on [HEADERS_FILE] *)

(** [os.path.exists(HEADERS_FILE)] *)
Definition os_path_exists : M bool := λ w,
  (Returns (match entry (disk w) with Absent => false | _ => true end), w).

(** [open(HEADERS_FILE, "r")] followed by reading the whole text *)
Definition open_read : M string := λ w,
  match entry (disk w) with
  | Regular text => (Returns text, w)
  | _ => (Raises (OSError (strerror (disk w))), w)
  end.

(** [os.makedirs(os.path.dirname(HEADERS_FILE), exist_ok=True)] *)
Definition os_makedirs : M unit := λ w,
  match data_dir (disk w) with
  | Dir _ => (Returns (), w)
  | NoDir =>
      if locked (disk w) then (Raises (OSError (strerror (disk w))), w)
      else (Returns (), with_disk (with_dir (Dir Absent) (disk w)) w)
  end.

(** [open(HEADERS_FILE, "w")]: creates or truncates the file *)
Definition open_write : M unit := λ w,
  match data_dir (disk w) with
  | Dir Unreadable | NoDir => (Raises (OSError (strerror (disk w))), w)
  | Dir _ =>
      if locked (disk w) then (Raises (OSError (strerror (disk w))), w)
      else (Returns (), with_disk (with_dir (Dir (Regular "")) (disk w)) w)
  end.

(** Writing [text] to the file just opened, and closing it: the text
    reaches the file as far as the medium has room for it, and a write
    that runs out of room raises with the file left at that prefix. *)
Definition file_write (text : string) : M unit := λ w,
  match quota (disk w) with
  | Some k =>
      if (k <? String.length text)%nat then
        (Raises (OSError (strerror (disk w))),
         with_disk
           (with_dir (Dir (Regular (String.substring 0 k text))) (disk w)) w)
      else (Returns (), with_disk (with_dir (Dir (Regular text)) (disk w)) w)
  | None => (Returns (), with_disk (with_dir (Dir (Regular text)) (disk w)) w)
  end.

(** [os.remove(HEADERS_FILE)] *)
Definition os_remove : M unit := λ w,
  match data_dir (disk w) with
  | Dir (Regular _) =>
      if locked (disk w) then (Raises (OSError (strerror (disk w))), w)
      else (Returns (), with_disk (with_dir (Dir Absent) (disk w)) w)
  | _ => (Raises (OSError (strerror (disk w))), w)
  end.

Definition NL : string := String (ascii_of_nat 10) EmptyString.

Section Router.
Context (P : platform).

Definition verify_token (x_client_token : option string) (cfg : Settings)
  : M unit :=
  if bool_decide (x_client_token = Some (ytm_client_token cfg)) then mret ()
  else raise (HTTPException 401 "Invalid token").

Definition load_headers : M pyval :=
  try_exceptM
    (found ← os_path_exists;
     if (found : bool) then
       text ← open_read;
       lift (json_load P text)
     else mret PNone)
    (λ _, mret PNone).

Definition save_headers (data : pyval) : M bool :=
  try_exceptM
    (_ ← os_makedirs;
     _ ← open_write;
     _ ← file_write (json_dump P data);
     mret true)
    (λ _, mret false).

(** The keys read from the stored headers, in the order of the source. *)
Definition AUTH_KEYS : list string := [
  "authorization";
  "x-goog-authuser";
  "x-goog-visitor-id";
  "x-origin";
  "x-youtube-client-name";
  "x-youtube-client-version";
  "user-agent";
  "accept-language";
  "cookie"
].

(** [f"{key}: {val}"] *)
Definition header_line (key : string) (val : pyval) : string :=
  key +:+ ": " +:+ match val with PStr s => s | _ => py_str P val end.

(** The loop over the keys, appending to [raw_lines]. *)
Fixpoint collect_lines (hdrs : pyval) (keys : list string)
    (raw_lines : list string) : outcome (list string) :=
  match keys with
  | [] => Returns raw_lines
  | key :: rest =>
      val ← Py.get hdrs key PNone;
      collect_lines hdrs rest
        (if truthy val then raw_lines ++ [header_line key val] else raw_lines)
  end.

(** The body under the [lru_cache] decorator. *)
Definition _get_cached_auth_string__wrapped : M (option string) :=
  headers_data ← load_headers;
  if negb (truthy headers_data) then mret None
  else
    h ← lift (Py.get headers_data "headers" PNone);
    raw_lines ← lift (collect_lines (py_or h (PDict ∅)) AUTH_KEYS []);
    if bool_decide (raw_lines = []) then mret None
    else
      handle ← lift (setup P (join NL raw_lines));
      mret (Some handle).

(** [@lru_cache(maxsize=1)] on a function without arguments: a returned
    value, [None] included, fills the slot; an exception does not. *)
Definition _get_cached_auth_string : M (option string) := λ w,
  match lru w with
  | Some r => (Returns r, w)
  | None =>
      match _get_cached_auth_string__wrapped w with
      | (Returns r, w') => (Returns r, with_lru (Some r) w')
      | (Raises e, w') => (Raises e, w')
      end
  end.

(** [_get_cached_auth_string.cache_clear()] *)
Definition cache_clear : M unit := λ w, (Returns (), with_lru None w).

Definition _make_yt : M (option ytmusic) :=
  auth ← _get_cached_auth_string;
  match auth with
  | None => mret None
  | Some a =>
      if String.eqb a "" then mret None
      else
        yt ← lift (YTMusic P a);
        mret (Some yt)
  end.

(** [loop.run_in_executor(_executor, fn)] awaited: the pool runs the
    blocking call and the handler resumes with what it returned or
    raised. *)
Definition run_in_executor {A} (fn : outcome A) : M A := lift fn.

(** The local [_try_history] of both handlers. *)
Definition _try_history (yt : ytmusic) : outcome pyval :=
  try_except (yt_get_history yt) (λ _, Returns (PList [])).

Definition NOT_CONNECTED : string :=
  "No headers found. Visit music.youtube.com with the extension loaded and play a track.".

Definition NOT_CONNECTED_YET : string :=
  "Not connected yet. Open music.youtube.com with the extension enabled and play a track.".

Definition NO_HISTORY_YET : string :=
  "Connected, but no history returned yet. Try playing a track and retry.".

Definition HISTORY_FAILED : string :=
  "Failed to get history from YouTube Music API".

(** ** [POST /ytm/ingest] *)
Definition ingest_headers (payload : HeaderIngest)
    (x_client_token : option string) (cfg : Settings) : M pyval :=
  _ ← verify_token x_client_token cfg;
  saved ← save_headers (HeaderIngest_dict payload);
  if negb saved then raise (HTTPException 500 "Failed to save headers")
  else
    _ ← try_exceptM cache_clear (λ _, mret ());
    mret (PStr "OK").

(** [[a.get("name") for a in (item.get("artists") or [])
     if isinstance(a, dict)]] *)
Definition artist_names (item : pyval) : outcome pyval :=
  artists ← Py.get item "artists" PNone;
  members ← Py.iter (py_or artists (PList []));
  names ← mapM (λ a, Py.get a "name" PNone)
            (filter (λ a, is_dict a = true) members);
  mret (PList names).

(** ** [GET /ytm/validate] *)

(** One entry of the sample, [i] being its number from [enumerate]. *)
Definition sample_record (i : Z) (item : pyval) : outcome pyval :=
  title ← Py.get item "title" PNone;
  artists ← artist_names item;
  played ← Py.get item "played" PNone;
  mret (PDict (<["number" := PInt i]>
              (<["title" := py_or title (PStr "Unknown")]>
              (<["artists" := artists]>
              (<["played" := py_or played (PStr "")]> ∅))))).

Fixpoint format_sample (i : Z) (sample : list pyval) (formatted : list pyval)
  : outcome (list pyval) :=
  match sample with
  | [] => Returns formatted
  | item :: rest =>
      if negb (is_dict item) then format_sample (i + 1) rest formatted
      else
        r ← sample_record i item;
        format_sample (i + 1) rest (formatted ++ [r])
  end.

Definition simple_response (ok : bool) (message : string)
    (sample : option pyval) : pyval :=
  let base : gmap string pyval :=
    <["ok" := PBool ok]> (<["message" := PStr message]> ∅) in
  PDict (match sample with
         | Some s => <["sample" := s]> base
         | None => base
         end).

Definition validate_connection (x_client_token : option string)
    (cfg : Settings) : M pyval :=
  _ ← verify_token x_client_token cfg;
  yt ← _make_yt;
  match yt with
  | None =>
      mret (simple_response false NOT_CONNECTED_YET None)
  | Some yt =>
      history ← run_in_executor (_try_history yt);
      if negb (truthy history) then
        mret (simple_response false NO_HISTORY_YET None)
      else
        let sample :=
          match history with PList l => slice_to l 5 | _ => [] end in
        formatted ← lift (format_sample 1 sample []);
        mret (simple_response true "Connection validated"
                (Some (PList formatted)))
  end.

(** ** [GET /ytm/history] *)

(** The record built for one upstream entry that is a dict. *)
Definition history_record (item : pyval) : outcome pyval :=
  videoId ← Py.get item "videoId" (PStr "");
  title ← Py.get item "title" (PStr "Unknown");
  artists ← artist_names item;
  album ← (a ← Py.get item "album" PNone;
            if is_dict a then Py.get (py_or a (PDict ∅)) "name" PNone
            else mret (PStr ""));
  thumbnail ← (t ← Py.get item "thumbnails" PNone;
                first ← Py.index0 (py_or t (PList [PDict ∅]));
                Py.get first "url" (PStr ""));
  played ← Py.get item "played" (PStr "");
  mret (PDict (<["videoId" := videoId]>
              (<["title" := title]>
              (<["artists" := artists]>
              (<["album" := album]>
              (<["thumbnail" := thumbnail]>
              (<["played" := played]> ∅))))))).

(** The loop [for item in history], appending to [normalized]. *)
Fixpoint normalize (items : list pyval) (normalized : list pyval)
  : outcome (list pyval) :=
  match items with
  | [] => Returns normalized
  | item :: rest =>
      if negb (is_dict item) then normalize rest normalized
      else
        r ← history_record item;
        normalize rest (normalized ++ [r])
  end.

(** [history[:limit]] when [history] is a list longer than [limit]. *)
Definition truncate (history : pyval) (limit : Z) : pyval :=
  match history with
  | PList l =>
      if Z.of_nat (length l) >? limit then PList (slice_to l limit)
      else history
  | _ => history
  end.

(** [limit] has passed [Query(50, ge=1, le=200)] when the handler runs. *)
Definition get_history (limit : Z) (x_client_token : option string)
    (cfg : Settings) : M pyval :=
  _ ← verify_token x_client_token cfg;
  yt ← _make_yt;
  match yt with
  | None => raise (HTTPException 404 NOT_CONNECTED)
  | Some yt =>
      history ← run_in_executor (_try_history yt);
      if negb (truthy history) then
        raise (HTTPException 500 HISTORY_FAILED)
      else
        items ← lift (Py.iter (truncate history limit));
        normalized ← lift (normalize items []);
        mret (PList normalized)
  end.

(** ** [GET /ytm/library] *)
Definition get_library (x_client_token : option string) (cfg : Settings)
  : M pyval :=
  _ ← verify_token x_client_token cfg;
  yt ← _make_yt;
  match yt with
  | None => raise (HTTPException 404 NOT_CONNECTED)
  | Some yt =>
      playlists ← run_in_executor (yt_get_library_playlists yt);
      mret (py_or playlists (PList []))
  end.

(** ** [GET /ytm/search] *)
Definition search_music (query : string) (x_client_token : option string)
    (cfg : Settings) : M pyval :=
  _ ← verify_token x_client_token cfg;
  yt ← _make_yt;
  match yt with
  | None => raise (HTTPException 404 NOT_CONNECTED)
  | Some yt =>
      results ← run_in_executor (yt_search yt query "songs" 20);
      mret (py_or results (PList []))
  end.

(** ** [DELETE /ytm/connect] *)
Definition disconnect (x_client_token : option string) (cfg : Settings)
  : M pyval :=
  _ ← verify_token x_client_token cfg;
  try_exceptM
    (found ← os_path_exists;
     if (found : bool) then
       _ ← os_remove;
       mret (simple_response true "Deleted headers" None)
     else mret (simple_response true "No headers to delete" None))
    (λ e, raise (HTTPException 500 ("Failed to delete files: " +:+ exn_str e))).

End Router.
End YtmRouter.

(* ===================================================================== *)
(** * A reference JSON codec

    [json.dump] and [json.load] belong to Python's library; the router is
    stated over any pair of them ([platform]).  This module gives one
    executable pair, used to run the router on concrete files: [dumps]
    prints in the layout of [json.dump(..., indent=2)], the keys of an
    object in the order of the map, and [loads] reads JSON text whose
    numbers are integers (the only numbers of [pyval]). *)
(* ===================================================================== *)

Module RefJson.

Definition QUOTE : ascii := ascii_of_nat 34.
Definition BACKSLASH : ascii := ascii_of_nat 92.

Definition hex_digit (n : N) : ascii :=
  ascii_of_N (if (n <? 10)%N then 48 + n else 87 + n).

(** One character of a text inside a JSON string, with [ensure_ascii]. *)
Definition escape_char (c : ascii) : list ascii :=
  let n := ord c in
  if (n =? 34)%N then [BACKSLASH; QUOTE]
  else if (n =? 92)%N then [BACKSLASH; BACKSLASH]
  else if (n =? 10)%N then [BACKSLASH; "n"%char]
  else if (n =? 13)%N then [BACKSLASH; "r"%char]
  else if (n =? 9)%N then [BACKSLASH; "t"%char]
  else if (n =? 8)%N then [BACKSLASH; "b"%char]
  else if (n =? 12)%N then [BACKSLASH; "f"%char]
  else if ((32 <=? n) && (n <=? 126))%N then [c]
  else [BACKSLASH; "u"%char; "0"%char; "0"%char;
        hex_digit (n / 16); hex_digit (n mod 16)].

Definition quoted (s : string) : string :=
  String.string_of_list_ascii
    (QUOTE :: concat (escape_char <$> String.list_ascii_of_string s) ++ [QUOTE]).

Definition NEWLINE : string := String (ascii_of_nat 10) EmptyString.

Fixpoint spaces (n : nat) : string :=
  match n with
  | O => EmptyString
  | S n' => String " " (spaces n')
  end.

(** A non-empty container on several lines, one item per line. *)
Definition block (opening closing : string) (depth : nat)
    (items : list string) : string :=
  match items with
  | [] => opening +:+ closing
  | _ =>
      opening +:+ NEWLINE +:+ spaces (2 * S depth)
      +:+ String.concat ("," +:+ NEWLINE +:+ spaces (2 * S depth)) items
      +:+ NEWLINE +:+ spaces (2 * depth) +:+ closing
  end.

Fixpoint dump_value (depth : nat) (v : pyval) : string :=
  match v with
  | PNone => "null"
  | PBool b => if b then "true" else "false"
  | PInt n => pretty n
  | PStr s => quoted s
  | PList l => block "[" "]" depth (map (dump_value (S depth)) l)
  | PDict d =>
      block "{" "}" depth
        (map_fold (λ k x acc,
           (acc ++ [quoted k +:+ ": " +:+ dump_value (S depth) x])%list) [] d)
  end.

Definition dumps (v : pyval) : string := dump_value 0 v.

(** ** Reading *)

Definition text := list ascii.

Definition is_ws (c : ascii) : bool :=
  let n := ord c in
  ((n =? 32) || (n =? 9) || (n =? 10) || (n =? 13))%N.

Fixpoint skip_ws (s : text) : text :=
  match s with
  | c :: r => if is_ws c then skip_ws r else s
  | [] => []
  end.

(** The text after the character of code [n], when [s] starts with it. *)
Definition after (n : N) (s : text) : option text :=
  match s with
  | c :: r => if (ord c =? n)%N then Some r else None
  | [] => None
  end.

Definition hex_value (c : ascii) : option N :=
  let n := ord c in
  if ((48 <=? n) && (n <=? 57))%N then Some (n - 48)%N
  else if ((97 <=? n) && (n <=? 102))%N then Some (n - 87)%N
  else if ((65 <=? n) && (n <=? 70))%N then Some (n - 55)%N
  else None.

(** The character a two-character escape stands for. *)
Definition unescape (e : ascii) : option ascii :=
  let n := ord e in
  if (n =? 34)%N then Some QUOTE
  else if (n =? 92)%N then Some BACKSLASH
  else if (n =? 47)%N then Some "/"%char
  else if (n =? 110)%N then Some (ascii_of_nat 10)
  else if (n =? 114)%N then Some (ascii_of_nat 13)
  else if (n =? 116)%N then Some (ascii_of_nat 9)
  else if (n =? 98)%N then Some (ascii_of_nat 8)
  else if (n =? 102)%N then Some (ascii_of_nat 12)
  else None.

(** The characters after an opening quote, up to the closing one. *)
Fixpoint read_string (s : text) : option (string * text) :=
  match s with
  | [] => None
  | c :: r =>
      if (ord c =? 34)%N then Some (EmptyString, r)
      else if (ord c =? 92)%N then
        match r with
        | [] => None
        | e :: r' =>
            if (ord e =? 117)%N then
              match r' with
              | z1 :: z2 :: h :: l :: r'' =>
                  if ((ord z1 =? 48) && (ord z2 =? 48))%N then
                    match hex_value h, hex_value l, read_string r'' with
                    | Some a, Some b, Some (t, rest) =>
                        Some (String (ascii_of_N (16 * a + b)) t, rest)
                    | _, _, _ => None
                    end
                  else None
              | _ => None
              end
            else
              match unescape e, read_string r' with
              | Some x, Some (t, rest) => Some (String x t, rest)
              | _, _ => None
              end
        end
      else if (ord c <? 32)%N then None
      else
        match read_string r with
        | Some (t, rest) => Some (String c t, rest)
        | None => None
        end
  end.

Definition digit_value (c : ascii) : option Z :=
  let n := ord c in
  if ((48 <=? n) && (n <=? 57))%N then Some (Z.of_N (n - 48)) else None.

Fixpoint read_digits (acc : Z) (s : text) : Z * text :=
  match s with
  | c :: r =>
      match digit_value c with
      | Some d => read_digits (10 * acc + d) r
      | None => (acc, s)
      end
  | [] => (acc, [])
  end.

(** A fraction or an exponent follows. *)
Definition starts_fraction (s : text) : bool :=
  match s with
  | c :: _ => ((ord c =? 46) || (ord c =? 101) || (ord c =? 69))%N
  | [] => false
  end.

(** An integer; a fraction or an exponent after it is refused. *)
Definition read_int (s : text) : option (Z * text) :=
  let '(neg, s1) :=
    match after 45 s with
    | Some r => (true, r)
    | None => (false, s)
    end in
  match s1 with
  | c :: r =>
      match digit_value c with
      | Some d =>
          let '(n, rest) := if d =? 0 then (0, r) else read_digits d r in
          if starts_fraction rest then None
          else Some (if neg then - n else n, rest)
      | None => None
      end
  | [] => None
  end.

Definition read_word (w : string) (v : pyval) (s : text)
  : option (pyval * text) :=
  let n := String.length w in
  if bool_decide (take n s = String.list_ascii_of_string w)
  then Some (v, drop n s) else None.

Definition reader := text → option (pyval * text).

(** [value (, value)* ]] after the opening bracket of a non-empty array;
    [fuel] bounds the number of items, the length of the text does. *)
Fixpoint read_items (value : reader) (fuel : nat) (s : text)
  : option (list pyval * text) :=
  match fuel with
  | O => None
  | S fuel' =>
      match value s with
      | Some (v, r) =>
          match after 44 (skip_ws r) with
          | Some r' =>
              match read_items value fuel' r' with
              | Some (vs, rest) => Some (v :: vs, rest)
              | None => None
              end
          | None =>
              match after 93 (skip_ws r) with
              | Some r' => Some ([v], r')
              | None => None
              end
          end
      | None => None
      end
  end.

(** ["key": value (, "key": value)* }] after the opening brace of a
    non-empty object; a repeated key keeps its last value. *)
Fixpoint read_members (value : reader) (fuel : nat) (s : text)
    (acc : gmap string pyval) : option (gmap string pyval * text) :=
  match fuel with
  | O => None
  | S fuel' =>
      match after 34 (skip_ws s) with
      | Some r =>
          match read_string r with
          | Some (k, r1) =>
              match after 58 (skip_ws r1) with
              | Some r2 =>
                  match value r2 with
                  | Some (v, r3) =>
                      match after 44 (skip_ws r3) with
                      | Some r4 => read_members value fuel' r4 (<[k := v]> acc)
                      | None =>
                          match after 125 (skip_ws r3) with
                          | Some r4 => Some (<[k := v]> acc, r4)
                          | None => None
                          end
                      end
                  | None => None
                  end
              | None => None
              end
          | None => None
          end
      | None => None
      end
  end.

Fixpoint read_value (fuel : nat) (s : text) : option (pyval * text) :=
  match fuel with
  | O => None
  | S fuel' =>
      match skip_ws s with
      | [] => None
      | c :: r =>
          let n := ord c in
          if (n =? 34)%N then
            match read_string r with
            | Some (t, rest) => Some (PStr t, rest)
            | None => None
            end
          else if (n =? 91)%N then
            match after 93 (skip_ws r) with
            | Some rest => Some (PList [], rest)
            | None =>
                match read_items (read_value fuel') (length r) r with
                | Some (vs, rest) => Some (PList vs, rest)
                | None => None
                end
            end
          else if (n =? 123)%N then
            match after 125 (skip_ws r) with
            | Some rest => Some (PDict ∅, rest)
            | None =>
                match read_members (read_value fuel') (length r) r ∅ with
                | Some (d, rest) => Some (PDict d, rest)
                | None => None
                end
            end
          else if (n =? 110)%N then read_word "null" PNone (c :: r)
          else if (n =? 116)%N then read_word "true" (PBool true) (c :: r)
          else if (n =? 102)%N then read_word "false" (PBool false) (c :: r)
          else
            match read_int (c :: r) with
            | Some (z, rest) => Some (PInt z, rest)
            | None => None
            end
      end
  end.

(** One value, with nothing but white space after it. *)
Definition loads (s : string) : outcome pyval :=
  let t := String.list_ascii_of_string s in
  match read_value (S (length t)) t with
  | Some (v, rest) =>
      match skip_ws rest with
      | [] => Returns v
      | _ => Raises JSONDecodeError
      end
  | None => Raises JSONDecodeError
  end.

(** ** Vocabulary for the round trip *)

Definition symbols (s : string) : text := String.list_ascii_of_string s.

(** White space only. *)
Definition blank (w : text) : Prop := Forall (λ c, is_ws c = true) w.

(** One member of an object at nesting [depth], as [dump_value] prints it. *)
Definition item (depth : nat) (kx : string * pyval) : string :=
  quoted kx.1 +:+ ": " +:+ dump_value (S depth) kx.2.

(** The text of [x], printed inside a container at [depth], reads back as
    [x] with fuel [f], whatever follows it. *)
Definition reads_back (depth f : nat) (x : pyval) : Prop :=
  ∀ tail, read_value f (symbols (dump_value (S depth) x) ++ tail)%list
          = Some (x, tail).

Definition put (m : gmap string pyval) (kx : string * pyval)
  : gmap string pyval :=
  <[kx.1 := kx.2]> m.

End RefJson.

(** ** A platform to run the router on

    The reference codec, a [setup] that refuses the header texts the
    library refuses and hands the others back, and a client whose three
    calls are given. *)

Module Sample.
Import YtmRouter.

(** [str] of a value; the text of a container is approximated by its JSON
    text. *)
Definition str_of (v : pyval) : string :=
  match v with
  | PNone => "None"
  | PBool true => "True"
  | PBool false => "False"
  | PInt n => pretty n
  | PStr s => s
  | _ => RefJson.dumps v
  end.

(** The lines of a text, split at the newlines; [line] is the line being
    read. *)
Fixpoint lines_of (s : string) (line : string) : list string :=
  match s with
  | EmptyString => [line]
  | String c r =>
      if (ord c =? 10)%N then line :: lines_of r ""
      else lines_of r (line +:+ String c "")
  end.

(** The headers [ytmusicapi.setup] insists on. *)
Definition REQUIRED_HEADERS : list string := ["cookie"; "x-goog-authuser"].

(** A stand-in for [ytmusicapi.setup]: as the library does, it raises on a
    header text without a [cookie] line or without an [x-goog-authuser]
    line.  The handle it returns for the other texts is the text itself;
    the router never looks into a handle. *)
Definition setup_browser (raw : string) : outcome string :=
  let present key :=
    existsb (String.prefix (key +:+ ": ")) (lines_of raw "") in
  if forallb present REQUIRED_HEADERS then Returns raw
  else Raises (YTMusicUserError "entries are missing in your headers").

Definition platform_of (client : ytmusic) : platform := {|
  json_dump := RefJson.dumps;
  json_load := RefJson.loads;
  py_str := str_of;
  setup := setup_browser;
  YTMusic := λ _, Returns client;
|}.

(** A client whose account has nothing in it. *)
Definition empty_account : ytmusic := {|
  yt_get_history := Returns (PList []);
  yt_get_library_playlists := Returns (PList []);
  yt_search := λ _ _ _, Returns (PList []);
|}.

(** A client that cannot reach the service. *)
Definition offline : ytmusic := {|
  yt_get_history := Raises (ClientError "connection refused");
  yt_get_library_playlists := Raises (ClientError "connection refused");
  yt_search := λ _ _ _, Raises (ClientError "connection refused");
|}.

(** Upstream rows: a full track, an entry that is not a dict, a track
    with nothing but its id. *)
Definition track_full : pyval :=
  PDict (<["videoId" := PStr "dQw4"]>
        (<["title" := PStr "Song"]>
        (<["artists" := PList [PDict {[ "name" := PStr "Ann"; "id" := PStr "UC1" ]};
                               PStr "feat.";
                               PDict {[ "id" := PStr "UC2" ]}]]>
        (<["album" := PDict {[ "name" := PStr "Album"; "id" := PStr "MPRE" ]}]>
        (<["thumbnails" := PList [PDict {[ "url" := PStr "https://i/1.jpg";
                                          "width" := PInt 60 ]}]]>
        (<["played" := PStr "Today"]>
        (<["likeStatus" := PStr "LIKE"]> ∅))))))).

Definition track_bare : pyval := PDict {[ "videoId" := PStr "x9" ]}.

Definition rows : list pyval := [track_full; PStr "shelf"; track_bare].

Definition listener : ytmusic := {|
  yt_get_history := Returns (PList rows);
  yt_get_library_playlists := Returns PNone;
  yt_search := λ _ _ _, Returns (PList [track_bare]);
|}.

(** A fresh checkout: no [data/] directory, nothing cached. *)
Definition fresh : world := {|
  disk := {| locked := false; strerror := "Permission denied";
             data_dir := NoDir; quota := None |};
  lru := None;
|}.

Definition doc_with (h : gmap string string) : HeaderIngest := {|
  url := "https://music.youtube.com/";
  time := "2025-10-01T12:00:00Z";
  headers := h;
|}.

Definition doc_authorization : HeaderIngest :=
  doc_with {[ "authorization" := "x" ]}.

(** The key is there, its value is empty. *)
Definition doc_empty_authorization : HeaderIngest :=
  doc_with {[ "authorization" := "" ]}.

(** The same browser session seen from two signed-in accounts. *)
Definition doc_account (authuser : string) : HeaderIngest :=
  doc_with (<[ "x-goog-authuser" := authuser ]>
           (<[ "cookie" := "SID=abc; SAPISID=def" ]>
           {[ "authorization" := "SAPISIDHASH 1_abc" ]})).

(** The header text the router builds from [doc_account authuser]. *)
Definition raw_account (authuser : string) : string :=
  "authorization: SAPISIDHASH 1_abc" +:+ NL
  +:+ "x-goog-authuser: " +:+ authuser +:+ NL
  +:+ "cookie: SID=abc; SAPISID=def".

(** No key of the list, one key outside it. *)
Definition doc_host_only : HeaderIngest :=
  doc_with {[ "host" := "music.youtube.com" ]}.

(** A process that has nothing cached and finds [text] in the file. *)
Definition holding_text (text : string) : world := {|
  disk := {| locked := false; strerror := "Permission denied";
             data_dir := Dir (Regular text); quota := None |};
  lru := None;
|}.

(** A process that has nothing cached and finds [doc] on disk. *)
Definition holding (doc : HeaderIngest) : world := {|
  disk := {| locked := false; strerror := "Permission denied";
             data_dir := Dir (Regular (RefJson.dumps (HeaderIngest_dict doc)));
             quota := None |};
  lru := None;
|}.

End Sample.

(* ===================================================================== *)
(** * The vocabulary of the design document, over the model              *)
(* ===================================================================== *)

Module YtmSpec.
Import Config YtmRouter.

(** The HTTP status the framework answers with: 200 for a returned body,
    the code of an [HTTPException], 500 for any other exception. *)
Definition status {A} (r : outcome A) : Z :=
  match r with
  | Returns _ => 200
  | Raises (HTTPException code _) => code
  | Raises _ => 500
  end.

(** The operations the coherence invariant speaks of, each one sent with
    the valid token: an ingest, a read of the session, a disconnect. *)
Inductive request :=
| Ingest (payload : HeaderIngest)
| Read
| Disconnect.

Section Spec.
Context (P : platform).

(** The document a medium holds, as a reader sees it: the parsed text of a
    regular file, and nothing otherwise. *)
Definition stored (st : storage) : pyval :=
  match entry st with
  | Regular text =>
      match json_load P text with
      | Returns v => v
      | Raises _ => PNone
      end
  | _ => PNone
  end.

(** A medium on which the file can be opened for writing. *)
Definition opens (st : storage) : bool :=
  negb (locked st) && match entry st with Unreadable => false | _ => true end.

(** A medium with room for [text]. *)
Definition fits (st : storage) (text : string) : bool :=
  match quota st with
  | Some k => (String.length text <=? k)%nat
  | None => true
  end.

(** A medium on which the write of [text] goes through. *)
Definition takes_write (st : storage) (text : string) : bool :=
  opens st && fits st text.

(** What a write of [text] that the medium took, or broke off, leaves in
    the file. *)
Definition written (st : storage) (text : string) : string :=
  match quota st with
  | Some k =>
      if (k <? String.length text)%nat then String.substring 0 k text
      else text
  | None => text
  end.

(** The codec gives back the document it wrote. *)
Definition codec_faithful (data : pyval) : Prop :=
  json_load P (json_dump P data) = Returns data.

(** [doc] is the CredentialDocument currently on disk. *)
Definition on_disk (doc : HeaderIngest) (w : world) : Prop :=
  stored (disk w) = HeaderIngest_dict doc.

(** A header value that is present and not empty. *)
Definition usable_value (h : gmap string string) (key : string)
  : option string :=
  match h !! key with
  | Some v => if String.eqb v "" then None else Some v
  | None => None
  end.

(** The lines of the raw header text: one per key of [keys] with a usable
    value, in the order of [keys]. *)
Definition raw_lines_of (keys : list string) (h : gmap string string)
  : list string :=
  omap (λ key, (λ v, key +:+ ": " +:+ v) <$> usable_value h key) keys.

(** The SessionHandle of a document: absent without a usable value, and
    otherwise what [setup] makes of the raw header text, its exception
    included. *)
Definition session_of (doc : HeaderIngest) : outcome (option string) :=
  match raw_lines_of AUTH_KEYS (headers doc) with
  | [] => Returns None
  | lines => handle ← setup P (join NL lines); mret (Some handle)
  end.

Definition usable (doc : HeaderIngest) : bool :=
  existsb (λ key, bool_decide (is_Some (usable_value (headers doc) key)))
    AUTH_KEYS.

(** Cache coherence: the cached value, when there is one, is what the
    derivation gives on the document now on disk. *)
Definition coherent (w : world) : Prop :=
  ∀ r, lru w = Some r →
       (_get_cached_auth_string__wrapped P w).1 = Returns r.

(** The process state after one operation, and after a sequence. *)
Definition serve (cfg : Settings) (r : request) (w : world) : world :=
  let token := Some (ytm_client_token cfg) in
  match r with
  | Ingest payload => (ingest_headers P payload token cfg w).2
  | Read => (_get_cached_auth_string P w).2
  | Disconnect => (disconnect token cfg w).2
  end.

Definition serve_all (cfg : Settings) (rs : list request) (w : world)
  : world :=
  foldl (λ w r, serve cfg r w) w rs.

End Spec.

(** The answer of [/ytm/history] once the client is there: the upstream
    call, the emptiness test, the normalization. *)
Definition history_reply (limit : Z) (yt : ytmusic) : outcome pyval :=
  match yt_get_history yt with
  | Raises _ => Raises (HTTPException 500 HISTORY_FAILED)
  | Returns rows =>
      if truthy rows then
        items ← Py.iter (truncate rows limit);
        normalized ← normalize items [];
        mret (PList normalized)
      else Raises (HTTPException 500 HISTORY_FAILED)
  end.

(** The subset of header keys as the data model lists it: authorization,
    visitor id, origin, client name and version, user agent, language,
    cookie. *)
Definition LISTED_KEYS : list string := [
  "authorization";
  "x-goog-visitor-id";
  "x-origin";
  "x-youtube-client-name";
  "x-youtube-client-version";
  "user-agent";
  "accept-language";
  "cookie"
].

(** The field set of a normalized history record. *)
Definition HISTORY_FIELDS : gset string :=
  {[ "videoId"; "title"; "artists"; "album"; "thumbnail"; "played" ]}.

(** Upstream shapes on which building a record goes through: [artists]
    can be iterated once [or []] has replaced a falsy value, and
    [thumbnails], when truthy, is a list that starts with a dict. *)
Definition artists_ok (v : pyval) : bool :=
  match v with
  | PList _ | PStr _ | PDict _ => true
  | _ => negb (truthy v)
  end.

Definition thumbnails_ok (v : pyval) : bool :=
  if truthy v then
    match v with
    | PList (PDict _ :: _) => true
    | _ => false
    end
  else true.

Definition track_shaped (item : pyval) : bool :=
  match item with
  | PDict d =>
      artists_ok (default PNone (d !! "artists"))
      && thumbnails_ok (default PNone (d !! "thumbnails"))
  | _ => true
  end.

End YtmSpec.

(* ===================================================================== *)
(** * [backend/code_service.py]: the command-line generator               *)
(* ===================================================================== *)

Module CodeScript.
Import Py CodeService.

Definition ALPHABET := "23456789ABCDEFGHJKLMNPQRSTUVWXYZ".
Definition CODE_LEN : Z := 4.

(** The outer comprehension of [generate_codes]: [k] codes, each one
    ["".join(random.choice(ALPHABET) for _ in range(CODE_LEN))].
    [random.choice] is [secrets.choice] on another generator: an element
    at a drawn index, [IndexError] on an empty sequence. *)
Fixpoint codes (k : nat) (g : entropy) : outcome (list string) * entropy :=
  match k with
  | O => (Returns [], g)
  | S k' =>
      match choices (Z.to_nat CODE_LEN) ALPHABET g with
      | (Raises e, g') => (Raises e, g')
      | (Returns code, g') =>
          match codes k' g' with
          | (Raises e, g'') => (Raises e, g'')
          | (Returns rest, g'') => (Returns (code :: rest), g'')
          end
      end
  end.

(** [range(max(1, count))] *)
Definition generate_codes (count : Z) (g : entropy)
  : outcome (list string) * entropy :=
  codes (Z.to_nat (Z.max 1 count)) g.

(** The route [GET /code] of the script's server: [generate_codes(1)[0]]. *)
Definition get_code (g : entropy) : outcome pyval * entropy :=
  match generate_codes 1 g with
  | (Returns (code :: _), g') => (Returns (PDict {[ "code" := PStr code ]}), g')
  | (Returns [], g') => (Raises IndexError, g')
  | (Raises e, g') => (Raises e, g')
  end.

(** The characters the script's docstring rules out. *)
Definition confusing (c : ascii) : bool :=
  bool_decide (c ∈ letters "01IO").

End CodeScript.

(* ===================================================================== *)
(** * Vocabulary of the further properties                                *)
(* ===================================================================== *)

Module UtilsSpec.
Import Py UtilsService.

(** [s] begins with a character satisfying [p]. *)
Definition starts_with (p : ascii → bool) (s : string) : bool :=
  match s with
  | String c _ => p c
  | EmptyString => false
  end.

(** [s] ends with a character satisfying [p]. *)
Fixpoint ends_with (p : ascii → bool) (s : string) : bool :=
  match s with
  | EmptyString => false
  | String c r =>
      match r with
      | EmptyString => p c
      | String _ _ => ends_with p r
      end
  end.

(** No two dashes in a row. *)
Fixpoint no_double_dash (s : string) : bool :=
  match s with
  | EmptyString => true
  | String c r => negb (is_dash c && starts_with is_dash r) && no_double_dash r
  end.

(** A slug in normal form: not empty, letters [a-z], digits and single
    dashes, and no dash at either end. *)
Definition clean (s : string) : bool :=
  negb (String.eqb s "")
  && all_chars is_slug_or_dash s
  && negb (starts_with is_dash s)
  && negb (ends_with is_dash s)
  && no_double_dash s.

End UtilsSpec.

Module CodeSpec.
Import CodeService.

(** The entropy stream whose next draw is [i], followed by [g]. *)
Definition push (i : nat) (g : entropy) : entropy :=
  λ j, match j with O => i | S j' => g j' end.

End CodeSpec.

Module YtmSpecMore.
Import Py YtmRouter YtmSpec.

(** [enumerate(sample, i)] *)
Fixpoint numbered (i : Z) (sample : list pyval) : list (Z * pyval) :=
  match sample with
  | [] => []
  | item :: rest => (i, item) :: numbered (i + 1) rest
  end.

(** The field set of a record of the validation sample. *)
Definition SAMPLE_FIELDS : gset string :=
  {[ "number"; "title"; "artists"; "played" ]}.

(** An entry whose [artists], once [or []] has replaced a falsy value, can
    be iterated. *)
Definition artists_shaped (item : pyval) : bool :=
  match item with
  | PDict d => artists_ok (default PNone (d !! "artists"))
  | _ => true
  end.

(** The name an upstream artist contributes: dicts only, [None] when the
    dict has no name. *)
Definition name_of (a : pyval) : option pyval :=
  match a with
  | PDict m => Some (default PNone (m !! "name"))
  | _ => None
  end.

(** A platform whose [setup] answers the empty text. *)
Definition mute (P : platform) : platform := {|
  json_dump := json_dump P;
  json_load := json_load P;
  py_str := py_str P;
  setup := λ _, Returns "";
  YTMusic := YTMusic P;
|}.

(** A platform on which the constructor of the client fails. *)
Definition stalled (P : platform) : platform := {|
  json_dump := json_dump P;
  json_load := json_load P;
  py_str := py_str P;
  setup := setup P;
  YTMusic := λ _, Raises (ClientError "connection refused");
|}.


(** The same process on a medium with room for [k] characters. *)
Definition cramped (k : nat) (w : world) : world :=
  with_disk {| locked := locked (disk w); strerror := strerror (disk w);
               data_dir := data_dir (disk w); quota := Some k |} w.

(** The same process with [r] in the slot of the cache. *)
Definition caching (r : option string) (w : world) : world :=
  with_lru (Some r) w.

End YtmSpecMore.

(* ===================================================================== *)
(** * Properties of the two services                                      *)
(* ===================================================================== *)

Module UtilsServiceFacts.
Import UtilsService.

Example slugify_spaces : slugify "   " = "n-a".
Proof. reflexivity. Qed.

Example slugify_mixed : slugify "Hello123World" = "hello123world".
Proof. reflexivity. Qed.

Lemma all_chars_lstrip (q p : ascii → bool) (s : string) :
  all_chars q s = true → all_chars q (lstrip p s) = true.
Proof.
  induction s as [|c r IH]; [done|]. cbn [lstrip].
  destruct (p c); [|done]. cbn. intros [_ Hr]%andb_true_iff. by apply IH.
Qed.

Lemma all_chars_rstrip (q p : ascii → bool) (s : string) :
  all_chars q s = true → all_chars q (rstrip p s) = true.
Proof.
  induction s as [|c r IH]; [done|]. cbn [rstrip all_chars].
  intros [Hc Hr]%andb_true_iff. specialize (IH Hr).
  destruct (rstrip p r) as [|c' r'].
  - destruct (p c); cbn; [done|]. by rewrite Hc.
  - cbn [all_chars] in *. by rewrite Hc, IH.
Qed.

Lemma all_chars_slug_re_sub (in_run : bool) (s : string) :
  all_chars is_slug_or_dash (_slug_re_sub in_run s) = true.
Proof.
  revert in_run. induction s as [|c r IH]; intros in_run; [done|].
  cbn [_slug_re_sub]. destruct (is_slug_char c) eqn:Hc.
  - cbn [all_chars]. unfold is_slug_or_dash at 1. by rewrite Hc, IH.
  - destruct in_run; [apply IH|]. cbn [all_chars]. by rewrite IH.
Qed.

(** A slug is never empty and is made of lower-case letters, digits and
    dashes only. *)
Lemma slugify_url_safe (text : string) :
  slugify text ≠ "" ∧ all_chars is_slug_or_dash (slugify text) = true.
Proof.
  unfold slugify, strip.
  set (s := rstrip is_dash (lstrip is_dash (_slug_re_sub false _))).
  assert (Hs : all_chars is_slug_or_dash s = true).
  { apply all_chars_rstrip, all_chars_lstrip, all_chars_slug_re_sub. }
  destruct (String.eqb s "") eqn:E; [done|].
  split; [|exact Hs]. intros ->. discriminate.
Qed.

(** C10: [slugify] maps "Hello, World!" to "hello-world" and the empty
    text to "n-a". *)
Theorem slugify_scenarios :
  slugify "Hello, World!" = "hello-world" ∧ slugify "" = "n-a".
Proof. split; vm_compute; reflexivity. Qed.

End UtilsServiceFacts.

Module CodeServiceFacts.
Import CodeService.

Lemma letters_nonempty (s : string) : s ≠ "" → letters s ≠ [].
Proof. destruct s; [congruence | discriminate]. Qed.

(** One draw from a non-empty alphabet returns one of its characters and
    moves the entropy stream by one. *)
Lemma choice_member (A : string) (g : entropy) :
  A ≠ "" →
  ∃ c, choice A g = (Returns c, λ i, g (S i)) ∧ c ∈ letters A.
Proof.
  intros HA. unfold choice.
  pose proof (letters_nonempty A HA) as Hne.
  destruct (letters A) as [|c cs] eqn:E; [congruence|].
  cbn [draw]. eexists; split; [reflexivity|].
  apply list_elem_of_In. apply (nth_In (c :: cs)).
  apply Nat.mod_upper_bound. cbn [length]. lia.
Qed.

Lemma choices_spec (k : nat) (A : string) (g : entropy) :
  A ≠ "" →
  ∃ s, choices k A g = (Returns s, λ i, g (k + i)%nat)
       ∧ String.length s = k
       ∧ Forall (λ c, c ∈ letters A) (letters s).
Proof.
  intros HA. revert g.
  induction k as [|k IH]; intros g.
  - exists EmptyString. cbn.
    split; [reflexivity|]. split; [reflexivity | constructor].
  - destruct (choice_member A g HA) as (c & Hc & Hin).
    destruct (IH (λ i, g (S i))) as (s & Hs & Hlen & Hall).
    exists (String c s). cbn [choices]. rewrite Hc, Hs.
    split; [reflexivity|]. split; [cbn; congruence|].
    cbn. constructor; assumption.
Qed.

(** A draw from the empty alphabet raises, as [secrets.choice] does. *)
Lemma generate_code_empty_alphabet (n : Z) (g : entropy) :
  0 < n → generate_code n "" g = (Raises IndexError, g).
Proof.
  intros Hn. unfold generate_code.
  destruct (Z.to_nat n) eqn:E; [lia|]. reflexivity.
Qed.

Lemma generate_code_negative (n : Z) (A : string) (g : entropy) :
  n ≤ 0 → generate_code n A g = (Returns "", g).
Proof.
  intros Hn. unfold generate_code.
  replace (Z.to_nat n) with 0%nat by lia. reflexivity.
Qed.

(** C9: for every length [n >= 0] and every non-empty alphabet,
    [generate_code n alphabet] returns a string of exactly [n] characters,
    each of them a character of the alphabet; with the defaults that is a
    string of length 4 over the configured alphabet. *)
Theorem generate_code_length_alphabet (n : Z) (A : string) (g : entropy) :
  0 ≤ n → A ≠ "" →
  ∃ s g', generate_code n A g = (Returns s, g')
          ∧ Z.of_nat (String.length s) = n
          ∧ Forall (λ c, c ∈ letters A) (letters s).
Proof.
  intros Hn HA. unfold generate_code.
  destruct (choices_spec (Z.to_nat n) A g HA) as (s & Hs & Hlen & Hall).
  exists s. eexists. split; [exact Hs|]. split; [lia | exact Hall].
Qed.

Lemma generate_code_length_alphabet_witness :
  ∃ s g', generate_code 4 DEFAULT_ALPHABET (λ i, 7 * i + 3)%nat = (Returns s, g')
          ∧ Z.of_nat (String.length s) = 4
          ∧ Forall (λ c, c ∈ letters DEFAULT_ALPHABET) (letters s).
Proof.
  apply (generate_code_length_alphabet 4 DEFAULT_ALPHABET); [lia | discriminate].
Defined.

(** [GET /codes/one] with the default settings answers a code of four
    characters. *)
Lemma get_one_code_default (g : entropy) :
  ∃ code g',
    CodeRouter.get_one_code Config.settings g
    = (Returns (PDict {[ "code" := PStr code ]}), g')
    ∧ String.length code = 4%nat.
Proof.
  unfold CodeRouter.get_one_code, generate_code.
  destruct (choices_spec 4 (CodeRouter.alphabet_of Config.settings) g)
    as (code & Hcode & Hlen & _); [discriminate|].
  change (Z.to_nat (Config.code_length Config.settings)) with 4%nat.
  rewrite Hcode. eauto.
Qed.

Example generate_code_run :
  (generate_code 4 DEFAULT_ALPHABET (λ i, 7 * i + 3)%nat).1 = Returns "5CKS".
Proof. vm_compute. reflexivity. Qed.

End CodeServiceFacts.

(* ===================================================================== *)
(** * The reference codec reads back the documents it writes             *)
(* ===================================================================== *)

Module RefJsonFacts.
Import YtmRouter RefJson.

Lemma symbols_app (a b : string) :
  symbols (a +:+ b) = (symbols a ++ symbols b)%list.
Proof.
  unfold symbols. induction a as [|c a IH]; [done|].
  change (c :: String.list_ascii_of_string (a +:+ b)
          = c :: (String.list_ascii_of_string a
                  ++ String.list_ascii_of_string b)%list).
  by rewrite IH.
Qed.

Lemma symbols_of_list (l : list ascii) :
  symbols (String.string_of_list_ascii l) = l.
Proof. apply String.list_ascii_of_string_of_list_ascii. Qed.

(** One escaped character reads back as that character. *)
Lemma read_string_escape (c : ascii) (tail : text) (t : string) (rest : text) :
  read_string tail = Some (t, rest) →
  read_string (escape_char c ++ tail)%list = Some (String c t, rest).
Proof.
  intros H.
  destruct c as [[] [] [] [] [] [] [] []];
    match goal with
    | |- context [escape_char ?c] =>
        let e := eval vm_compute in (escape_char c) in
        change (escape_char c) with e
    end;
    cbn; rewrite H; reflexivity.
Qed.

Lemma read_quoted_body (s : string) (rest : text) :
  read_string (concat (escape_char <$> symbols s) ++ QUOTE :: rest)%list
  = Some (s, rest).
Proof.
  unfold symbols. induction s as [|c s IH]; [reflexivity|].
  cbn [String.list_ascii_of_string fmap list_fmap concat].
  rewrite <- app_assoc. by apply read_string_escape.
Qed.

Lemma symbols_quoted (s : string) :
  symbols (quoted s)
  = QUOTE :: (concat (escape_char <$> symbols s) ++ [QUOTE])%list.
Proof. unfold quoted. by rewrite symbols_of_list. Qed.

Lemma read_value_ws (f : nat) (c : ascii) (s : text) :
  is_ws c = true → read_value f (c :: s) = read_value f s.
Proof.
  intros Hc. destruct f; [done|]. cbn [read_value skip_ws]. by rewrite Hc.
Qed.

Lemma read_value_quoted (f : nat) (s : string) (rest : text) :
  read_value (S f) (symbols (quoted s) ++ rest)%list = Some (PStr s, rest).
Proof.
  rewrite symbols_quoted. cbn [read_value app skip_ws].
  change (is_ws QUOTE) with false. cbv iota.
  change (ord QUOTE =? 34)%N with true. cbv iota.
  rewrite <- app_assoc. cbn [app]. by rewrite read_quoted_body.
Qed.

Lemma skip_ws_blank (w s : text) :
  blank w → skip_ws (w ++ s)%list = skip_ws s.
Proof.
  induction 1 as [|c w Hc _ IH]; [done|]. cbn [app skip_ws]. by rewrite Hc.
Qed.

Lemma blank_spaces (n : nat) : blank (symbols (spaces n)).
Proof. induction n; constructor; done. Qed.

Lemma blank_newline_spaces (n : nat) : blank (symbols (NEWLINE +:+ spaces n)).
Proof.
  rewrite symbols_app. apply Forall_app.
  split; [by repeat constructor | apply blank_spaces].
Qed.

Lemma skip_ws_quote (s : text) : skip_ws (QUOTE :: s) = QUOTE :: s.
Proof. reflexivity. Qed.

Lemma symbols_concat_cons (sep x y : string) (l : list string) :
  symbols (String.concat sep (x :: y :: l))
  = (symbols x ++ symbols sep ++ symbols (String.concat sep (y :: l)))%list.
Proof.
  change (String.concat sep (x :: y :: l))
    with (x +:+ sep +:+ String.concat sep (y :: l)).
  by rewrite !symbols_app.
Qed.

Lemma after_hit (c : ascii) (n : N) (s : text) :
  (ord c =? n)%N = true → after n (c :: s) = Some s.
Proof. intros H. unfold after. by rewrite H. Qed.

Lemma after_miss (c : ascii) (n : N) (s : text) :
  (ord c =? n)%N = false → after n (c :: s) = None.
Proof. intros H. unfold after. by rewrite H. Qed.

(** The members of an object, printed one per line, read back as the
    inserts of their keys, in order. *)
Lemma read_members_items (depth f : nat) (L : list (string * pyval))
    (w1 w2 : string) (acc : gmap string pyval) (fuel : nat) (rest : text) :
  L ≠ [] → (List.length L ≤ fuel)%nat →
  blank (symbols w1) → blank (symbols w2) →
  Forall (λ kx, reads_back depth f kx.2) L →
  read_members (read_value f) fuel
    (symbols w1 ++ symbols (String.concat ("," +:+ w1) (item depth <$> L))
     ++ symbols w2 ++ symbols "}" ++ rest)%list acc
  = Some (foldl put acc L, rest).
Proof.
  intros Hne Hfuel Hw1 Hw2 Hall. revert acc fuel Hfuel.
  induction Hall as [|[k x] L Hx Hall IH]; [done|]. intros acc fuel Hfuel.
  destruct fuel as [|fuel]; [cbn in Hfuel; lia|].
  cbn [read_members]. rewrite skip_ws_blank by done.
  assert (Hhead : ∀ more,
    match after 34 (skip_ws (symbols (item depth (k, x)) ++ more)%list) with
    | Some r =>
        match read_string r with
        | Some (k', r1) =>
            match after 58 (skip_ws r1) with
            | Some r2 =>
                match read_value f r2 with
                | Some (v, r3) => Some (k', v, r3)
                | None => None
                end
            | None => None
            end
        | None => None
        end
    | None => None
    end = Some (k, x, more)).
  { intros more. unfold item. cbn [fst snd].
    rewrite !symbols_app, symbols_quoted. cbn [app]. rewrite <- !app_assoc.
    rewrite skip_ws_quote, after_hit by done.
    cbn [app]. rewrite read_quoted_body.
    cbn [symbols String.list_ascii_of_string app skip_ws].
    change (is_ws ":") with false. cbv iota.
    rewrite after_hit by done.
    rewrite read_value_ws by done. by rewrite Hx. }
  destruct L as [|kx' L'].
  - cbn [fmap list_fmap String.concat foldl].
    specialize (Hhead (symbols w2 ++ symbols "}" ++ rest)%list).
    destruct (after 34 _) as [r|]; [|done].
    destruct (read_string r) as [[k' r1]|]; [|done].
    destruct (after 58 _) as [r2|]; [|done].
    destruct (read_value f r2) as [[v r3]|]; [|done].
    injection Hhead as -> -> ->.
    rewrite skip_ws_blank by done.
    cbn [symbols String.list_ascii_of_string app skip_ws].
    change (is_ws "}") with false. cbv iota.
    rewrite after_miss, after_hit by done. reflexivity.
  - cbn [fmap list_fmap]. rewrite symbols_concat_cons, <- !app_assoc.
    specialize (Hhead (symbols ("," +:+ w1)
                       ++ symbols (String.concat ("," +:+ w1)
                                   (item depth <$> kx' :: L'))
                       ++ symbols w2 ++ symbols "}" ++ rest)%list).
    cbn [fmap list_fmap] in Hhead.
    destruct (after 34 _) as [r|]; [|done].
    destruct (read_string r) as [[k' r1]|]; [|done].
    destruct (after 58 _) as [r2|]; [|done].
    destruct (read_value f r2) as [[v r3]|]; [|done].
    injection Hhead as -> -> ->.
    rewrite symbols_app. cbn [symbols String.list_ascii_of_string app skip_ws].
    change (is_ws ",") with false. cbv iota.
    rewrite after_hit by done.
    cbn [foldl]. apply IH; [done|]. cbn in Hfuel. cbn. lia.
Qed.


Lemma items_of_dict (depth : nat) (d : gmap string pyval) :
  map_fold (λ k x acc,
     (acc ++ [quoted k +:+ ": " +:+ dump_value (S depth) x])%list) [] d
  = item depth <$> reverse (map_to_list d).
Proof.
  rewrite map_fold_foldr.
  induction (map_to_list d) as [|[k x] l IH]; [done|].
  cbn [foldr uncurry]. rewrite IH, reverse_cons, fmap_app. reflexivity.
Qed.

Lemma foldl_put_reverse (l : list (string * pyval)) :
  foldl put ∅ (reverse l) = list_to_map l.
Proof.
  induction l as [|[k x] l IH]; [done|].
  rewrite reverse_cons, foldl_app, IH. reflexivity.
Qed.

Lemma concat_items_length (sep : string) (items : list string) :
  Forall (λ s, s ≠ "") items →
  (List.length items ≤ List.length (symbols (String.concat sep items)))%nat.
Proof.
  induction 1 as [|x items Hx Hall IH]; [cbn; lia|].
  destruct items as [|y items].
  - cbn. destruct x; [done|]. cbn. lia.
  - rewrite symbols_concat_cons, !length_app.
    destruct x; [done|]. cbn in *. lia.
Qed.

Lemma item_nonempty (depth : nat) (kx : string * pyval) : item depth kx ≠ "".
Proof.
  unfold item. intros H. apply (f_equal symbols) in H.
  rewrite symbols_app, symbols_quoted in H. discriminate.
Qed.

Lemma read_value_dict (depth f : nat) (d : gmap string pyval) (rest : text) :
  map_Forall (λ _ x, reads_back depth f x) d →
  read_value (S f) (symbols (dump_value depth (PDict d)) ++ rest)%list
  = Some (PDict d, rest).
Proof.
  intros Hd. cbn [dump_value]. rewrite items_of_dict.
  set (L := reverse (map_to_list d)).
  assert (HL : Forall (λ kx, reads_back depth f kx.2) L).
  { apply Forall_reverse, Forall_forall. intros [k x] Hkx.
    apply (Hd k x). by apply elem_of_map_to_list. }
  assert (Hput : foldl put ∅ L = d).
  { unfold L. by rewrite foldl_put_reverse, list_to_map_to_list. }
  destruct L as [|kx L'] eqn:EL.
  - cbn in Hput. subst d. reflexivity.
  - rewrite <- EL in *. assert (HLne : L ≠ []) by (rewrite EL; done).
    unfold block. destruct (item depth <$> L) as [|it its] eqn:Eits.
    { rewrite EL in Eits. discriminate. }
    rewrite <- Eits. clear it its Eits.
    set (w1 := NEWLINE +:+ spaces (2 * S depth)).
    set (w2 := NEWLINE +:+ spaces (2 * depth)).
    assert (Htext :
      (symbols ("{" +:+ NEWLINE +:+ spaces (2 * S depth)
              +:+ String.concat ("," +:+ w1) (item depth <$> L)
              +:+ NEWLINE +:+ spaces (2 * depth) +:+ "}") ++ rest
       = "{"%char :: symbols w1
           ++ symbols (String.concat ("," +:+ w1) (item depth <$> L))
           ++ symbols w2 ++ symbols "}" ++ rest)%list).
    { unfold w1, w2. rewrite !symbols_app, <- !app_assoc. reflexivity. }
    rewrite Htext. clear Htext.
    assert (Hw1 : blank (symbols w1)) by apply blank_newline_spaces.
    assert (Hw2 : blank (symbols w2)) by apply blank_newline_spaces.
    clearbody w1 w2.
    cbn [read_value skip_ws].
    change (is_ws "{") with false. cbv iota.
    change (ord "{" =? 34)%N with false.
    change (ord "{" =? 91)%N with false.
    change (ord "{" =? 123)%N with true. cbv iota.
    assert (Hstart : ∀ more,
      after 125 (skip_ws (symbols w1
         ++ symbols (String.concat ("," +:+ w1) (item depth <$> L)) ++ more)%list)
      = None).
    { intros more. rewrite skip_ws_blank by done.
      rewrite EL. cbn [fmap list_fmap].
      destruct (item depth <$> L') as [|y ys].
      - cbn [String.concat]. unfold item. rewrite !symbols_app, symbols_quoted.
        reflexivity.
      - rewrite symbols_concat_cons. unfold item.
        rewrite !symbols_app, symbols_quoted. reflexivity. }
    rewrite Hstart.
    rewrite (read_members_items depth f L w1 w2 ∅ _ rest); try done.
    + by rewrite Hput.
    + rewrite !length_app.
      pose proof (concat_items_length ("," +:+ w1) (item depth <$> L)) as Hlen.
      rewrite length_fmap in Hlen. 
      assert (List.length L ≤ List.length
                (symbols (String.concat ("," +:+ w1) (item depth <$> L))))%nat.
      { apply Hlen. apply Forall_fmap, Forall_forall. intros ? _.
        apply item_nonempty. }
      lia.
Qed.

Lemma reads_back_str (depth f : nat) (s : string) :
  reads_back depth (S f) (PStr s).
Proof. intros tail. apply read_value_quoted. Qed.

Lemma reads_back_dict (depth f : nat) (d : gmap string pyval) :
  map_Forall (λ _ x, reads_back (S depth) f x) d →
  reads_back depth (S f) (PDict d).
Proof. intros Hd tail. by apply read_value_dict. Qed.

Lemma dump_dict_length (depth : nat) (d : gmap string pyval) :
  d ≠ ∅ → (2 ≤ List.length (symbols (dump_value depth (PDict d))))%nat.
Proof.
  intros Hd. cbn [dump_value]. rewrite items_of_dict.
  destruct (reverse (map_to_list d)) as [|kx L] eqn:EL.
  - apply (f_equal reverse) in EL. rewrite reverse_involutive in EL.
    by apply map_to_list_empty_iff in EL.
  - cbn [fmap list_fmap block]. rewrite !symbols_app, !length_app. cbn. lia.
Qed.

(** The reference codec reads back every document it writes. *)
Lemma loads_dumps_document (doc : HeaderIngest) :
  loads (dumps (HeaderIngest_dict doc)) = Returns (HeaderIngest_dict doc).
Proof.
  unfold loads, dumps, HeaderIngest_dict.
  set (d := <["url":=PStr (url doc)]> _).
  fold (symbols (dump_value 0 (PDict d))).
  pose proof (dump_dict_length 0 d) as Hlen.
  destruct (List.length (symbols (dump_value 0 (PDict d)))) as [|[|f]] eqn:E.
  1,2: specialize (Hlen ltac:(apply insert_non_empty)); lia.
  clear Hlen E.
  rewrite <- (app_nil_r (symbols (dump_value 0 (PDict d)))).
  rewrite read_value_dict; [reflexivity|].
  intros k x Hk. unfold d in Hk.
  repeat (apply lookup_insert_Some in Hk as [[_ <-]|[_ Hk]];
          [try apply reads_back_str|]).
  - apply reads_back_dict. intros k' x' Hk'.
    apply lookup_fmap_Some in Hk' as (v & <- & _). apply reads_back_str.
  - by rewrite lookup_empty in Hk.
Qed.

End RefJsonFacts.

(* ===================================================================== *)
(** * Properties of the header bridge                                     *)
(* ===================================================================== *)

Module YtmRouterFacts.
Import Config YtmRouter YtmSpec.

(** ** The credential store *)

Section Store.
Context (P : platform).

Lemma load_headers_run (w : world) :
  load_headers P w = (Returns (stored P (disk w)), w).
Proof.
  unfold load_headers, try_exceptM, stored, entry, mbind, M_bind,
    os_path_exists, open_read, lift, mret, M_ret.
  destruct w as [[lk msg t q] c]; cbn.
  destruct t as [|[| |text]]; try reflexivity.
  cbn. destruct (json_load P text); reflexivity.
Qed.

Lemma written_fits (st : storage) (text : string) :
  fits st text = true → written st text = text.
Proof.
  unfold fits, written. destruct (quota st) as [k|]; [|done].
  intros Hfit. by rewrite Nat.ltb_antisym, Hfit.
Qed.

(** [save_headers] step by step: refused before the file is touched, or
    the file opened, truncated and written as far as the medium has
    room. *)
Lemma save_headers_run (data : pyval) (w : world) :
  save_headers P data w =
  if opens (disk w)
  then (Returns (fits (disk w) (json_dump P data)),
        with_disk
          (with_dir (Dir (Regular (written (disk w) (json_dump P data))))
             (disk w)) w)
  else (Returns false, w).
Proof.
  unfold save_headers, try_exceptM, opens, fits, written, entry, mbind,
    M_bind, os_makedirs, open_write, file_write, mret, M_ret.
  destruct w as [[lk msg t q] c]; cbn -[Nat.ltb Nat.leb].
  destruct t as [|[| |text]], lk, q as [k|]; cbn -[Nat.ltb Nat.leb];
    try reflexivity; rewrite Nat.ltb_antisym;
    by destruct (String.length (json_dump P data) <=? k)%nat.
Qed.

End Store.

(** C7: [load_headers] always returns and never raises, whatever the state
    of the file: absent on a missing file, on an unreadable one and on
    text that is not JSON, and the parsed document when the file is there
    and parses.  It leaves the process state as it was. *)
Theorem load_headers_fails_soft (P : platform) (w : world) :
  ∃ v, load_headers P w = (Returns v, w)
       ∧ match entry (disk w) with
         | Absent => v = PNone
         | Unreadable => v = PNone
         | Regular text =>
             match json_load P text with
             | Raises _ => v = PNone
             | Returns parsed => v = parsed
             end
         end.
Proof.
  exists (stored P (disk w)). split; [apply load_headers_run|].
  unfold stored. destruct (entry (disk w)) as [| |text]; try reflexivity.
  destruct (json_load P text); reflexivity.
Qed.

Example load_headers_malformed :
  (load_headers (Sample.platform_of Sample.empty_account)
     (Sample.holding_text "{ headers: ")).1 = Returns PNone.
Proof. vm_compute. reflexivity. Qed.

(** The file may hold JSON that is no document: a list has no [get], the
    derivation raises and nothing is cached. *)
Example session_of_a_list :
  _get_cached_auth_string (Sample.platform_of Sample.empty_account)
    (Sample.holding_text "[1]")
  = (Raises AttributeError, Sample.holding_text "[1]").
Proof. vm_compute. reflexivity. Qed.

Lemma save_then_stored (P : platform) (data : pyval) (w w' : world) :
  codec_faithful P data →
  save_headers P data w = (Returns true, w') →
  stored P (disk w') = data ∧ lru w' = lru w.
Proof.
  intros Hcodec Hsave. rewrite save_headers_run in Hsave.
  destruct (opens (disk w)); [|discriminate].
  injection Hsave as Hfits <-. unfold stored, entry. cbn.
  rewrite (written_fits _ _ Hfits), Hcodec. split; reflexivity.
Qed.

(** C6: when [save_headers doc] returns true, the [load_headers] that
    follows returns a document equal to [doc] (the codec being one that
    reads back what it wrote for [doc]). *)
Theorem save_load_roundtrip (P : platform) (doc : HeaderIngest)
    (w w' : world) :
  codec_faithful P (HeaderIngest_dict doc) →
  save_headers P (HeaderIngest_dict doc) w = (Returns true, w') →
  load_headers P w' = (Returns (HeaderIngest_dict doc), w').
Proof.
  intros Hcodec Hsave. rewrite load_headers_run.
  destruct (save_then_stored P _ w w' Hcodec Hsave) as [-> _]. reflexivity.
Qed.

(** With the reference codec the premise on the codec holds for every
    document. *)
Lemma reference_codec_faithful (client : ytmusic) (doc : HeaderIngest) :
  codec_faithful (Sample.platform_of client) (HeaderIngest_dict doc).
Proof. apply RefJsonFacts.loads_dumps_document. Qed.

Lemma ingest_reference_on_disk (client : ytmusic) (doc : HeaderIngest)
    (w w' : world) :
  save_headers (Sample.platform_of client) (HeaderIngest_dict doc) w
  = (Returns true, w') →
  on_disk (Sample.platform_of client) doc w'.
Proof.
  intros Hsave. unfold on_disk.
  by destruct (save_then_stored _ _ w w' (reference_codec_faithful client doc)
                 Hsave) as [-> _].
Qed.

Lemma save_load_roundtrip_witness :
  let P := Sample.platform_of Sample.empty_account in
  let doc := Sample.doc_authorization in
  let w' := (save_headers P (HeaderIngest_dict doc) Sample.fresh).2 in
  codec_faithful P (HeaderIngest_dict doc)
  ∧ save_headers P (HeaderIngest_dict doc) Sample.fresh = (Returns true, w')
  ∧ load_headers P w' = (Returns (HeaderIngest_dict doc), w').
Proof.
  intros P doc w'.
  assert (Hc : codec_faithful P (HeaderIngest_dict doc))
    by (vm_compute; reflexivity).
  assert (Hs : save_headers P (HeaderIngest_dict doc) Sample.fresh
               = (Returns true, w'))
    by (vm_compute; reflexivity).
  split; [exact Hc|]. split; [exact Hs|].
  exact (save_load_roundtrip P doc Sample.fresh w' Hc Hs).
Defined.


(** ** The session cache *)

Ltac run_M :=
  unfold run_in_executor;
  unfold mbind, M_bind, mret, M_ret, lift, raise, try_exceptM;
  cbv beta iota zeta.

Section Session.
Context (P : platform).

Lemma truthy_document (doc : HeaderIngest) :
  truthy (HeaderIngest_dict doc) = true.
Proof.
  unfold HeaderIngest_dict, truthy.
  rewrite bool_decide_eq_false_2; [reflexivity|]. apply insert_non_empty.
Qed.

Lemma get_document_headers (doc : HeaderIngest) :
  Py.get (HeaderIngest_dict doc) "headers" PNone
  = Returns (PDict (PStr <$> headers doc)).
Proof. unfold HeaderIngest_dict, Py.get. by simplify_map_eq. Qed.

Lemma py_or_dict_empty (m : gmap string pyval) :
  py_or (PDict m) (PDict ∅) = PDict m.
Proof.
  unfold py_or, truthy. case_bool_decide as E; [by subst|reflexivity].
Qed.

Lemma raw_lines_of_cons (key : string) (keys : list string)
    (h : gmap string string) :
  raw_lines_of (key :: keys) h
  = match usable_value h key with
    | Some v => (key +:+ ": " +:+ v) :: raw_lines_of keys h
    | None => raw_lines_of keys h
    end.
Proof. unfold raw_lines_of. cbn. by destruct (usable_value h key). Qed.

(** The loop of the source, run on typed headers, appends the lines the
    data model describes. *)
Lemma collect_lines_typed (h : gmap string string) (keys acc : list string) :
  collect_lines P (PDict (PStr <$> h)) keys acc
  = Returns (acc ++ raw_lines_of keys h)%list.
Proof.
  revert acc. induction keys as [|key keys IH]; intros acc.
  - cbn. by rewrite app_nil_r.
  - cbn [collect_lines Py.get]. rewrite lookup_fmap, raw_lines_of_cons.
    unfold usable_value. cbn [mbind outcome_bind].
    destruct (h !! key) as [v|] eqn:E; cbn.
    + destruct (String.eqb v ""); cbn.
      * apply IH.
      * rewrite IH. by rewrite <- app_assoc.
    + apply IH.
Qed.

Lemma wrapped_on_document (doc : HeaderIngest) (w : world) :
  on_disk P doc w →
  _get_cached_auth_string__wrapped P w = (session_of P doc, w).
Proof.
  unfold on_disk. intros Hdoc.
  unfold _get_cached_auth_string__wrapped. unfold mbind at 1, M_bind at 1.
  rewrite load_headers_run, Hdoc, truthy_document. cbn [negb].
  run_M. rewrite get_document_headers. cbv beta iota.
  rewrite py_or_dict_empty, collect_lines_typed.
  cbn [app]. unfold session_of.
  destruct (raw_lines_of AUTH_KEYS (headers doc)) as [|l ls]; [reflexivity|].
  rewrite bool_decide_eq_false_2 by discriminate.
  by destruct (setup P (join NL (l :: ls))).
Qed.

Lemma on_disk_with_lru (doc : HeaderIngest) (c : option (option string))
    (w : world) :
  on_disk P doc (with_lru c w) ↔ on_disk P doc w.
Proof. reflexivity. Qed.

(** A miss derives from the document on disk; what the derivation
    returns fills the slot, what it raises does not. *)
Lemma cached_miss (doc : HeaderIngest) (w : world) :
  on_disk P doc w → lru w = None →
  _get_cached_auth_string P w
  = match session_of P doc with
    | Returns r => (Returns r, with_lru (Some r) w)
    | Raises e => (Raises e, w)
    end.
Proof.
  intros Hdoc Hmiss. unfold _get_cached_auth_string.
  rewrite Hmiss, (wrapped_on_document doc w Hdoc). reflexivity.
Qed.

Lemma cached_miss_outcome (doc : HeaderIngest) (w : world) :
  on_disk P doc w → lru w = None →
  (_get_cached_auth_string P w).1 = session_of P doc.
Proof.
  intros Hdoc Hmiss. rewrite (cached_miss doc w Hdoc Hmiss).
  by destruct (session_of P doc).
Qed.

(** A hit answers from the slot and reads nothing. *)
Lemma cached_hit (r : option string) (w : world) :
  lru w = Some r → _get_cached_auth_string P w = (Returns r, w).
Proof. intros Hhit. unfold _get_cached_auth_string. by rewrite Hhit. Qed.

(** Only the keys of the list reach the raw header text. *)
Lemma raw_lines_of_agree (keys : list string) (h1 h2 : gmap string string) :
  (∀ key, key ∈ keys → h1 !! key = h2 !! key) →
  raw_lines_of keys h1 = raw_lines_of keys h2.
Proof.
  intros Hagree. induction keys as [|key keys IH].
  - reflexivity.
  - rewrite !raw_lines_of_cons. unfold usable_value.
    rewrite (Hagree key) by left. rewrite IH; [reflexivity|].
    intros k Hk. apply Hagree. by right.
Qed.

Lemma raw_lines_of_nil (keys : list string) (h : gmap string string) :
  raw_lines_of keys h = []
  ↔ existsb (λ key, bool_decide (is_Some (usable_value h key))) keys = false.
Proof.
  induction keys as [|key keys IH]; [done|].
  rewrite raw_lines_of_cons. cbn [existsb].
  destruct (usable_value h key) as [v|]; cbn.
  - split; discriminate.
  - exact IH.
Qed.

(** With a usable value the session is what [setup] makes of the raw
    header text; without one it is absent and [setup] is not called. *)
Lemma session_of_usable (doc : HeaderIngest) :
  session_of P doc
  = if usable doc
    then handle ← setup P (join NL (raw_lines_of AUTH_KEYS (headers doc)));
         mret (Some handle)
    else Returns None.
Proof.
  unfold usable, session_of.
  pose proof (raw_lines_of_nil AUTH_KEYS (headers doc)) as Hnil.
  destruct (raw_lines_of AUTH_KEYS (headers doc)) as [|l ls] eqn:E.
  - rewrite (proj1 Hnil eq_refl). reflexivity.
  - destruct (existsb _ AUTH_KEYS) eqn:Ex; [reflexivity|].
    by specialize (proj2 Hnil eq_refl).
Qed.

End Session.


Section Handle.
Context (P : platform).

(** C2, as the code has it: the session is what [setup] makes of the
    lines [key: value] for the nine keys of [AUTH_KEYS] (the listed eight
    and [x-goog-authuser]), in that order, a key without a non-empty value
    being skipped: the handle [setup] returns for that text, or the
    exception with which it refuses it.  Two documents that agree on those
    keys derive the same session, whatever their other headers. *)
Theorem handle_reads_fixed_keys (doc1 doc2 : HeaderIngest) (w1 w2 : world) :
  on_disk P doc1 w1 → lru w1 = None →
  on_disk P doc2 w2 → lru w2 = None →
  (∀ key, key ∈ AUTH_KEYS → headers doc1 !! key = headers doc2 !! key) →
  (_get_cached_auth_string P w1).1 = session_of P doc1
  ∧ (∀ handle,
       raw_lines_of AUTH_KEYS (headers doc1) ≠ [] →
       setup P (join NL (raw_lines_of AUTH_KEYS (headers doc1)))
       = Returns handle →
       (_get_cached_auth_string P w1).1 = Returns (Some handle))
  ∧ (_get_cached_auth_string P w2).1 = (_get_cached_auth_string P w1).1.
Proof.
  intros Hd1 Hm1 Hd2 Hm2 Hagree.
  rewrite (cached_miss_outcome P doc1 w1 Hd1 Hm1),
    (cached_miss_outcome P doc2 w2 Hd2 Hm2).
  split; [reflexivity|]. split.
  - intros handle Hlines Hsetup. unfold session_of.
    destruct (raw_lines_of AUTH_KEYS (headers doc1)); [done|].
    by rewrite Hsetup.
  - unfold session_of. by rewrite (raw_lines_of_agree AUTH_KEYS _ _ Hagree).
Qed.

End Handle.

Lemma handle_reads_fixed_keys_witness :
  let P := Sample.platform_of Sample.empty_account in
  let doc1 := Sample.doc_account "0" in
  let doc2 := Sample.doc_with
                (<["host" := "music.youtube.com"]> (headers doc1)) in
  (_get_cached_auth_string P (Sample.holding doc1)).1
    = Returns (Some (Sample.raw_account "0"))
  ∧ (_get_cached_auth_string P (Sample.holding doc2)).1
    = (_get_cached_auth_string P (Sample.holding doc1)).1.
Proof.
  intros P doc1 doc2.
  assert (H : (_get_cached_auth_string P (Sample.holding doc1)).1
              = session_of P doc1
            ∧ (∀ handle,
                 raw_lines_of AUTH_KEYS (headers doc1) ≠ [] →
                 setup P (join NL (raw_lines_of AUTH_KEYS (headers doc1)))
                 = Returns handle →
                 (_get_cached_auth_string P (Sample.holding doc1)).1
                 = Returns (Some handle))
            ∧ (_get_cached_auth_string P (Sample.holding doc2)).1
              = (_get_cached_auth_string P (Sample.holding doc1)).1).
  { apply (handle_reads_fixed_keys P doc1 doc2);
      try (vm_compute; reflexivity).
    intros key Hkey. unfold AUTH_KEYS in Hkey.
    repeat (apply elem_of_cons in Hkey as [->|Hkey];
            [vm_compute; reflexivity|]).
    by apply elem_of_nil in Hkey. }
  destruct H as (_ & Hhandle & Hsame).
  split; [|exact Hsame].
  apply Hhandle; [vm_compute; discriminate | vm_compute; reflexivity].
Defined.

(** C2, counterexample to the listed subset: two documents that agree on
    every key the data model lists, and differ on [x-goog-authuser], hand
    different header texts to [setup] and derive different handles. *)
Lemma listed_keys_do_not_determine_handle :
  let P := Sample.platform_of Sample.empty_account in
  let doc0 := Sample.doc_account "0" in
  let doc1 := Sample.doc_account "1" in
  (∀ key, key ∈ LISTED_KEYS → headers doc0 !! key = headers doc1 !! key)
  ∧ join NL (raw_lines_of AUTH_KEYS (headers doc0))
    ≠ join NL (raw_lines_of AUTH_KEYS (headers doc1))
  ∧ (_get_cached_auth_string P (Sample.holding doc0)).1
    ≠ (_get_cached_auth_string P (Sample.holding doc1)).1.
Proof.
  intros P doc0 doc1. split; [|split].
  - intros key Hkey. unfold LISTED_KEYS in Hkey.
    repeat (apply elem_of_cons in Hkey as [->|Hkey];
            [vm_compute; reflexivity|]).
    by apply elem_of_nil in Hkey.
  - vm_compute. discriminate.
  - vm_compute. discriminate.
Qed.

Example handle_of_account :
  session_of (Sample.platform_of Sample.empty_account) (Sample.doc_account "1")
  = Returns (Some ("authorization: SAPISIDHASH 1_abc" +:+ NL
                   +:+ "x-goog-authuser: 1" +:+ NL
                   +:+ "cookie: SID=abc; SAPISID=def")).
Proof. vm_compute. reflexivity. Qed.

(** The order of the lines is the order of [AUTH_KEYS], not the order in
    which the browser sent the headers. *)
Example handle_line_order :
  session_of (Sample.platform_of Sample.empty_account)
    (Sample.doc_with (<["cookie" := "c"]> (<["user-agent" := "ua"]>
                     (<["x-goog-authuser" := "0"]>
                     (<["authorization" := "a"]> ∅)))))
  = Returns (Some ("authorization: a" +:+ NL +:+ "x-goog-authuser: 0" +:+ NL
                   +:+ "user-agent: ua" +:+ NL +:+ "cookie: c")).
Proof. vm_compute. reflexivity. Qed.

(** A header text without [cookie] and [x-goog-authuser] is refused by
    [setup]: the exception leaves the derivation and nothing is cached. *)
Example incomplete_headers_refused :
  let P := Sample.platform_of Sample.empty_account in
  let w := Sample.holding Sample.doc_authorization in
  _get_cached_auth_string P w
  = (Raises (YTMusicUserError "entries are missing in your headers"), w).
Proof. vm_compute. reflexivity. Qed.


(** ** The routes *)

Section Routes.
Context (P : platform).

Lemma verify_token_valid (cfg : Settings) (w : world) :
  verify_token (Some (ytm_client_token cfg)) cfg w = (Returns (), w).
Proof. unfold verify_token. by rewrite bool_decide_eq_true_2. Qed.

Lemma verify_token_invalid (token : option string) (cfg : Settings)
    (w : world) :
  token ≠ Some (ytm_client_token cfg) →
  verify_token token cfg w = (Raises (HTTPException 401 "Invalid token"), w).
Proof. intros H. unfold verify_token. by rewrite bool_decide_eq_false_2. Qed.

Lemma make_yt_run (w : world) :
  _make_yt P w =
  match _get_cached_auth_string P w with
  | (Returns (Some a), w') =>
      (if String.eqb a "" then Returns None
       else yt ← YTMusic P a; mret (Some yt), w')
  | (Returns None, w') => (Returns None, w')
  | (Raises e, w') => (Raises e, w')
  end.
Proof.
  unfold _make_yt. run_M.
  destruct (_get_cached_auth_string P w) as [[[a|]|e] w']; try reflexivity.
  destruct (String.eqb a ""); [reflexivity|]. by destruct (YTMusic P a).
Qed.

Lemma get_history_run (limit : Z) (cfg : Settings) (w : world) :
  get_history P limit (Some (ytm_client_token cfg)) cfg w =
  match _make_yt P w with
  | (Returns (Some yt), w') => (history_reply limit yt, w')
  | (Returns None, w') => (Raises (HTTPException 404 NOT_CONNECTED), w')
  | (Raises e, w') => (Raises e, w')
  end.
Proof.
  unfold get_history. unfold mbind at 1, M_bind at 1.
  rewrite verify_token_valid. unfold mbind at 1, M_bind at 1.
  destruct (_make_yt P w) as [[[yt|]|e] w']; try reflexivity.
  unfold history_reply, _try_history, try_except. run_M.
  destruct (yt_get_history yt) as [rows|e]; [|reflexivity].
  destruct (truthy rows); [|reflexivity]. cbn [negb].
  destruct (Py.iter (truncate rows limit)) as [items|e]; [|reflexivity].
  cbn. destruct (normalize items []); reflexivity.
Qed.

Lemma get_library_run (cfg : Settings) (w : world) :
  get_library P (Some (ytm_client_token cfg)) cfg w =
  match _make_yt P w with
  | (Returns (Some yt), w') =>
      (playlists ← yt_get_library_playlists yt;
       mret (py_or playlists (PList [])), w')
  | (Returns None, w') => (Raises (HTTPException 404 NOT_CONNECTED), w')
  | (Raises e, w') => (Raises e, w')
  end.
Proof.
  unfold get_library. unfold mbind at 1, M_bind at 1.
  rewrite verify_token_valid. unfold mbind at 1, M_bind at 1.
  destruct (_make_yt P w) as [[[yt|]|e] w']; try reflexivity.
  run_M. by destruct (yt_get_library_playlists yt).
Qed.

Lemma search_music_run (query : string) (cfg : Settings) (w : world) :
  search_music P query (Some (ytm_client_token cfg)) cfg w =
  match _make_yt P w with
  | (Returns (Some yt), w') =>
      (results ← yt_search yt query "songs" 20;
       mret (py_or results (PList [])), w')
  | (Returns None, w') => (Raises (HTTPException 404 NOT_CONNECTED), w')
  | (Raises e, w') => (Raises e, w')
  end.
Proof.
  unfold search_music. unfold mbind at 1, M_bind at 1.
  rewrite verify_token_valid. unfold mbind at 1, M_bind at 1.
  destruct (_make_yt P w) as [[[yt|]|e] w']; try reflexivity.
  run_M. by destruct (yt_search yt query "songs" 20).
Qed.

Lemma validate_connection_run (cfg : Settings) (w : world) :
  validate_connection P (Some (ytm_client_token cfg)) cfg w =
  match _make_yt P w with
  | (Returns (Some yt), w') =>
      (let history := _try_history yt in
       match history with
       | Raises e => Raises e
       | Returns history =>
           if truthy history then
             formatted ←
               format_sample 1
                 (match history with PList l => slice_to l 5 | _ => [] end) [];
             mret (simple_response true "Connection validated"
                     (Some (PList formatted)))
           else Returns (simple_response false NO_HISTORY_YET None)
       end, w')
  | (Returns None, w') =>
      (Returns (simple_response false NOT_CONNECTED_YET None), w')
  | (Raises e, w') => (Raises e, w')
  end.
Proof.
  unfold validate_connection. unfold mbind at 1, M_bind at 1.
  rewrite verify_token_valid. unfold mbind at 1, M_bind at 1.
  destruct (_make_yt P w) as [[[yt|]|e] w']; try reflexivity.
  run_M. destruct (_try_history yt) as [history|e]; [|reflexivity].
  destruct (truthy history); [|reflexivity]. cbn [negb].
  by destruct (format_sample _ _ _).
Qed.

End Routes.





(** C4, on the code: [get_library] and [search_music] call the client
    without a [try]; what the client raises leaves the handler as it is.
    [validate_connection] and [get_history] do catch it. *)
Theorem client_exception_escapes (P : platform) (query : string)
    (cfg : Settings) (w w' : world) (yt : ytmusic) (e : exn) :
  _make_yt P w = (Returns (Some yt), w') →
  yt_get_history yt = Raises e →
  yt_get_library_playlists yt = Raises e →
  yt_search yt query "songs" 20 = Raises e →
  let token := Some (ytm_client_token cfg) in
  get_library P token cfg w = (Raises e, w')
  ∧ search_music P query token cfg w = (Raises e, w')
  ∧ get_history P 50 token cfg w
    = (Raises (HTTPException 500 HISTORY_FAILED), w')
  ∧ validate_connection P token cfg w
    = (Returns (simple_response false NO_HISTORY_YET None), w').
Proof.
  intros Hyt Hh Hl Hs token. subst token.
  rewrite get_library_run, search_music_run, get_history_run,
    validate_connection_run, Hyt.
  unfold history_reply, _try_history. rewrite Hh, Hl, Hs. done.
Qed.

Lemma client_exception_escapes_witness :
  let P := Sample.platform_of Sample.offline in
  let w := Sample.holding (Sample.doc_account "0") in
  (get_library P (Some "dev-token") settings w).1
    = Raises (ClientError "connection refused")
  ∧ (search_music P "lofi" (Some "dev-token") settings w).1
    = Raises (ClientError "connection refused").
Proof.
  intros P w.
  destruct (client_exception_escapes P "lofi" settings w (_make_yt P w).2
              Sample.offline (ClientError "connection refused")
              ltac:(vm_compute; reflexivity) eq_refl eq_refl eq_refl)
    as (Hlib & Hsearch & _).
  split; [exact (f_equal fst Hlib) | exact (f_equal fst Hsearch)].
Defined.


(** C5, as the code has it: with [doc] on disk, [get_session()] after
    [invalidate()] is the session of [doc], a function of the document
    alone.  When one of the nine keys has a non-empty value the raw header
    text goes to [setup]: if [setup] accepts it, the handle it returns is
    returned, cached, and returned again by a second call and after
    another [invalidate()]; if [setup] refuses it, its exception leaves
    [get_session()], nothing is cached, and history, library, search and
    validate fail with that exception.  When no key has a usable value
    (every key absent or empty) the session is absent, and the dependent
    operations report the missing connection: 404 from history, library
    and search, and [ok = false] from validate. *)
Theorem session_after_invalidate (P : platform) (doc : HeaderIngest)
    (cfg : Settings) (limit : Z) (query : string) (w : world) :
  on_disk P doc w →
  let token := Some (ytm_client_token cfg) in
  let w0 := (cache_clear w).2 in
  let raw := join NL (raw_lines_of AUTH_KEYS (headers doc)) in
  (_get_cached_auth_string P w0).1 = session_of P doc
  ∧ if usable doc then
      match setup P raw with
      | Returns handle =>
          let w1 := with_lru (Some (Some handle)) w in
          _get_cached_auth_string P w0 = (Returns (Some handle), w1)
          ∧ _get_cached_auth_string P w1 = (Returns (Some handle), w1)
          ∧ _get_cached_auth_string P (cache_clear w1).2
            = (Returns (Some handle), w1)
      | Raises e =>
          _get_cached_auth_string P w0 = (Raises e, w0)
          ∧ get_history P limit token cfg w0 = (Raises e, w0)
          ∧ get_library P token cfg w0 = (Raises e, w0)
          ∧ search_music P query token cfg w0 = (Raises e, w0)
          ∧ validate_connection P token cfg w0 = (Raises e, w0)
      end
    else
      let w1 := with_lru (Some None) w in
      _get_cached_auth_string P w0 = (Returns None, w1)
      ∧ _get_cached_auth_string P w1 = (Returns None, w1)
      ∧ get_history P limit token cfg w0
        = (Raises (HTTPException 404 NOT_CONNECTED), w1)
      ∧ get_library P token cfg w0
        = (Raises (HTTPException 404 NOT_CONNECTED), w1)
      ∧ search_music P query token cfg w0
        = (Raises (HTTPException 404 NOT_CONNECTED), w1)
      ∧ validate_connection P token cfg w0
        = (Returns (simple_response false NOT_CONNECTED_YET None), w1).
Proof.
  intros Hdoc token w0 raw.
  assert (Hdoc0 : on_disk P doc w0) by exact Hdoc.
  pose proof (cached_miss P doc w0 Hdoc0 eq_refl) as Hmiss.
  split; [by apply cached_miss_outcome|].
  rewrite session_of_usable in Hmiss. fold raw in Hmiss. subst token.
  destruct (usable doc).
  - destruct (setup P raw) as [handle|e];
      cbn [mbind outcome_bind mret outcome_ret] in Hmiss.
    + split; [exact Hmiss|]. split; [by apply cached_hit | exact Hmiss].
    + split; [exact Hmiss|].
      rewrite get_history_run, get_library_run, search_music_run,
        validate_connection_run, make_yt_run, Hmiss. done.
  - split; [exact Hmiss|]. split; [by apply cached_hit|].
    rewrite get_history_run, get_library_run, search_music_run,
      validate_connection_run, make_yt_run, Hmiss. done.
Qed.

Lemma session_after_invalidate_witness :
  let P := Sample.platform_of Sample.empty_account in
  let absent := (cache_clear (Sample.holding Sample.doc_host_only)).2 in
  let accepted := (cache_clear (Sample.holding (Sample.doc_account "0"))).2 in
  let refused := (cache_clear (Sample.holding Sample.doc_authorization)).2 in
  ((_get_cached_auth_string P absent).1 = Returns None
   ∧ (get_history P 50 (Some "dev-token") settings absent).1
     = Raises (HTTPException 404 NOT_CONNECTED))
  ∧ (_get_cached_auth_string P accepted).1
    = Returns (Some (Sample.raw_account "0"))
  ∧ get_history P 50 (Some "dev-token") settings refused
    = (Raises (YTMusicUserError "entries are missing in your headers"),
       refused).
Proof.
  intros P absent accepted refused.
  pose proof (session_after_invalidate P Sample.doc_host_only settings 50
                "lofi" (Sample.holding Sample.doc_host_only)
                ltac:(vm_compute; reflexivity)) as (_ & Habsent).
  pose proof (session_after_invalidate P (Sample.doc_account "0") settings 50
                "lofi" (Sample.holding (Sample.doc_account "0"))
                ltac:(vm_compute; reflexivity)) as (Haccepted & _).
  pose proof (session_after_invalidate P Sample.doc_authorization settings 50
                "lofi" (Sample.holding Sample.doc_authorization)
                ltac:(vm_compute; reflexivity)) as (_ & Hrefused).
  split; [|split].
  - destruct Habsent as (Hget & _ & Hhist & _).
    split; [exact (f_equal fst Hget) | exact (f_equal fst Hhist)].
  - exact Haccepted.
  - destruct Hrefused as (_ & Hhist & _). exact Hhist.
Defined.

(** C5, counterexample to "at least one key present": the document has the
    key [authorization], with an empty value, and no session is derived. *)
Lemma present_key_with_empty_value :
  let P := Sample.platform_of Sample.empty_account in
  let doc := Sample.doc_empty_authorization in
  let w := Sample.holding doc in
  on_disk P doc w
  ∧ "authorization" ∈ AUTH_KEYS
  ∧ headers doc !! "authorization" = Some ""
  ∧ (_get_cached_auth_string P (cache_clear w).2).1 = Returns None.
Proof.
  intros P doc w. repeat split; try (vm_compute; reflexivity).
  unfold AUTH_KEYS. apply list_elem_of_here.
Qed.

Example usable_key_gives_session :
  let P := Sample.platform_of Sample.empty_account in
  (_get_cached_auth_string P
     (cache_clear (Sample.holding (Sample.doc_account "0"))).2).1
  = Returns (Some (Sample.raw_account "0")).
Proof. vm_compute. reflexivity. Qed.


(** ** Normalization of the history *)

Section Normalization.

Lemma mapM_cons {A B} (f : A → outcome B) (x : A) (l : list A) :
  mapM f (x :: l) = y ← f x; k ← mapM f l; mret (y :: k).
Proof. reflexivity. Qed.

Lemma mapM_returns {A B} (f : A → outcome B) (l : list A) (k : list B) :
  mapM f l = Returns k ↔ Forall2 (λ x y, f x = Returns y) l k.
Proof.
  revert k. induction l as [|x l IH]; intros k.
  - cbn. split.
    + intros [= <-]. constructor.
    + intros H. by inversion H.
  - rewrite mapM_cons. split.
    + destruct (f x) as [y|e] eqn:Hx; [|discriminate]. cbn.
      destruct (mapM f l) as [k'|e] eqn:Hl; [|discriminate]. cbn.
      intros [= <-]. constructor; [exact Hx | by apply IH].
    + intros H. inversion H as [|? y ? k' Hx Hl]; subst.
      rewrite Hx. cbn. apply IH in Hl. rewrite Hl. reflexivity.
Qed.

(** The loop with its accumulator is a map over the entries it keeps. *)
Lemma normalize_mapM (items acc : list pyval) :
  normalize items acc
  = (records ← mapM history_record (filter (λ x, is_dict x = true) items);
     mret (acc ++ records)%list).
Proof.
  revert acc. induction items as [|item items IH]; intros acc.
  - cbn. by rewrite app_nil_r.
  - cbn [normalize]. destruct (is_dict item) eqn:Hd; cbn [negb].
    + rewrite filter_cons_True by done. rewrite mapM_cons.
      destruct (history_record item) as [r|e]; [|reflexivity]. cbn.
      rewrite IH.
      destruct (mapM history_record _) as [rs|e]; [|reflexivity]. cbn.
      by rewrite <- app_assoc.
    + rewrite filter_cons_False by (rewrite Hd; discriminate). apply IH.
Qed.

(** A record has the six fields, whatever the upstream entry held. *)
Lemma history_record_fields (item r : pyval) :
  history_record item = Returns r →
  ∃ d, r = PDict d ∧ dom d = HISTORY_FIELDS.
Proof.
  unfold history_record. intros H.
  repeat match type of H with
         | (mbind _ ?c) = _ => destruct c; cbn in H; [|discriminate]
         end.
  injection H as <-. eexists. split; [reflexivity|].
  unfold HISTORY_FIELDS. rewrite !dom_insert_L, dom_empty_L. set_solver.
Qed.

Lemma artist_names_returns (d : gmap string pyval) :
  artists_ok (default PNone (d !! "artists")) = true →
  ∃ names, artist_names (PDict d) = Returns names.
Proof.
  intros Hok. unfold artist_names. cbn [Py.get mbind outcome_bind].
  set (a := default PNone (d !! "artists")) in *.
  assert (∃ members, Py.iter (py_or a (PList [])) = Returns members)
    as [members ->].
  { unfold py_or. destruct a as [|b|n|s|l|m]; cbn in *; eauto.
    - destruct b; [discriminate|eauto].
    - destruct (n =? 0); [eauto|discriminate].
    - destruct (String.eqb s ""); cbn; eauto.
    - case_bool_decide; cbn; eauto.
    - case_bool_decide; cbn; eauto. }
  cbn.
  assert (∃ names, mapM (λ x, Py.get x "name" PNone)
                     (filter (λ x, is_dict x = true) members) = Returns names)
    as [names ->]; [|cbn; eauto].
  induction members as [|x members [names IH]]; [by exists []|].
  destruct (is_dict x) eqn:Hx.
  - rewrite filter_cons_True by done. rewrite mapM_cons, IH.
    destruct x; try discriminate. cbn. eauto.
  - rewrite filter_cons_False by (rewrite Hx; discriminate). eauto.
Qed.

Lemma history_record_returns (item : pyval) :
  is_dict item = true → track_shaped item = true →
  ∃ r, history_record item = Returns r.
Proof.
  destruct item as [| | | | |d]; try discriminate. intros _.
  unfold track_shaped. intros [Ha Ht]%andb_true_iff.
  unfold history_record.
  destruct (artist_names_returns d Ha) as [names ->].
  cbn [Py.get mbind outcome_bind].
  set (al := default PNone (d !! "album")).
  assert (∃ album, (if is_dict al then Py.get (py_or al (PDict ∅)) "name" PNone
                    else mret (PStr "")) = Returns album) as [album ->].
  { destruct al; cbn; eauto. unfold py_or. destruct (truthy _); cbn; eauto. }
  set (t := default PNone (d !! "thumbnails")) in *.
  assert (∃ thumbnail, (first ← Py.index0 (py_or t (PList [PDict ∅]));
                        Py.get first "url" (PStr "")) = Returns thumbnail)
    as [thumbnail ->]; [|cbn; eauto].
  unfold thumbnails_ok, py_or in *. destruct (truthy t); [|cbn; eauto].
  destruct t as [| | | |[|[] ?]|]; try discriminate. cbn. eauto.
Qed.

Lemma mapM_history_record_returns (items : list pyval) :
  Forall (λ x, track_shaped x = true) items →
  ∃ records,
    mapM history_record (filter (λ x, is_dict x = true) items)
    = Returns records.
Proof.
  induction 1 as [|item items Hitem _ [records IH]]; [by exists []|].
  destruct (is_dict item) eqn:Hd.
  - rewrite filter_cons_True by done. rewrite mapM_cons, IH.
    destruct (history_record_returns item Hd Hitem) as [r ->]. cbn. eauto.
  - rewrite filter_cons_False by (rewrite Hd; discriminate). eauto.
Qed.

End Normalization.


Lemma truncate_take (rows : list pyval) (limit : Z) :
  0 ≤ limit →
  truncate (PList rows) limit = PList (take (Z.to_nat limit) rows).
Proof.
  intros Hlimit. unfold truncate, slice_to.
  destruct (Z.of_nat (length rows) >? limit) eqn:Hlen.
  - by rewrite (proj2 (Z.leb_le 0 limit)).
  - rewrite take_ge; [reflexivity|]. lia.
Qed.

(** C8: for a limit in 1..200 and an upstream list, the answer of
    [/ytm/history] is the normalization, in order, of the dict entries
    among the first [limit] rows (500 when the list is empty): a returned
    body has at most [limit] records, one for each such entry and in the
    same order, every record with exactly the fields videoId, title,
    artists, album, thumbnail, played; entries that are not dicts are
    dropped, and the body is returned whenever the kept entries have the
    shape of a track. *)
Theorem history_is_bounded_prefix (P : platform) (limit : Z) (cfg : Settings)
    (w w' : world) (yt : ytmusic) (rows : list pyval) :
  1 ≤ limit ≤ 200 →
  _make_yt P w = (Returns (Some yt), w') →
  yt_get_history yt = Returns (PList rows) →
  let kept := filter (λ x, is_dict x = true) (take (Z.to_nat limit) rows) in
  let reply := get_history P limit (Some (ytm_client_token cfg)) cfg w in
  reply.2 = w'
  ∧ reply.1 = match rows with
              | [] => Raises (HTTPException 500 HISTORY_FAILED)
              | _ => records ← mapM history_record kept; mret (PList records)
              end
  ∧ (∀ body, reply.1 = Returns body →
       ∃ records,
         body = PList records
         ∧ Forall2 (λ item r, history_record item = Returns r) kept records
         ∧ Z.of_nat (length records) ≤ limit
         ∧ Forall (λ r, ∃ d, r = PDict d ∧ dom d = HISTORY_FIELDS) records)
  ∧ (rows ≠ [] →
     Forall (λ x, track_shaped x = true) (take (Z.to_nat limit) rows) →
     ∃ records, reply.1 = Returns (PList records)).
Proof.
  intros Hlimit Hyt Hrows kept reply.
  assert (Hreply : reply = (match rows with
                            | [] => Raises (HTTPException 500 HISTORY_FAILED)
                            | _ => records ← mapM history_record kept;
                                   mret (PList records)
                            end, w')).
  { unfold reply. rewrite get_history_run, Hyt. f_equal.
    unfold history_reply. rewrite Hrows.
    destruct rows as [|row rows']; [reflexivity|].
    change (truthy (PList (row :: rows'))) with true. cbv iota.
    rewrite truncate_take by lia. cbn [Py.iter mbind outcome_bind].
    rewrite normalize_mapM. fold kept.
    by destruct (mapM history_record kept). }
  rewrite Hreply. cbn [fst snd]. split; [reflexivity|]. split; [reflexivity|].
  split.
  - intros body Hbody. destruct rows as [|row rows']; [discriminate|].
    destruct (mapM history_record kept) as [records|e] eqn:Hmap;
      [|discriminate].
    injection Hbody as <-. exists records. split; [reflexivity|].
    apply mapM_returns in Hmap. split; [exact Hmap|]. split.
    + rewrite <- (Forall2_length _ _ _ Hmap). unfold kept.
      pose proof (length_filter (λ x, is_dict x = true)
                    (take (Z.to_nat limit) (row :: rows'))) as Hf.
      rewrite length_take in Hf. lia.
    + clear -Hmap. induction Hmap as [|item r items rs Hr _ IH];
        constructor; [by eapply history_record_fields | exact IH].
  - intros Hne Hshape.
    destruct (mapM_history_record_returns _ Hshape) as [records Hrec].
    fold kept in Hrec. rewrite Hrec. destruct rows; [done|]. cbn. eauto.
Qed.

Lemma history_is_bounded_prefix_witness :
  let P := Sample.platform_of Sample.listener in
  let w := Sample.holding (Sample.doc_account "0") in
  ∃ r1, history_record Sample.track_full = Returns r1
        ∧ (get_history P 2 (Some "dev-token") settings w).1
          = Returns (PList [r1]).
Proof.
  intros P w.
  destruct (history_is_bounded_prefix P 2 settings w (_make_yt P w).2
              Sample.listener Sample.rows ltac:(lia)
              ltac:(vm_compute; reflexivity) eq_refl)
    as (_ & Hreply & _).
  eexists. split; [reflexivity|]. exact Hreply.
Defined.

(** The record of a full upstream track, and of one that has only its id. *)
Example history_record_full :
  history_record Sample.track_full
  = Returns (PDict (<["videoId" := PStr "dQw4"]>
                   (<["title" := PStr "Song"]>
                   (<["artists" := PList [PStr "Ann"; PNone]]>
                   (<["album" := PStr "Album"]>
                   (<["thumbnail" := PStr "https://i/1.jpg"]>
                   (<["played" := PStr "Today"]> ∅))))))).
Proof. vm_compute. reflexivity. Qed.

Example history_record_bare :
  history_record Sample.track_bare
  = Returns (PDict (<["videoId" := PStr "x9"]>
                   (<["title" := PStr "Unknown"]>
                   (<["artists" := PList []]>
                   (<["album" := PStr ""]>
                   (<["thumbnail" := PStr ""]>
                   (<["played" := PStr ""]> ∅))))))).
Proof. vm_compute. reflexivity. Qed.

(** A truthy [thumbnails] that does not start with a dict stops the
    normalization with an exception. *)
Example history_record_odd_thumbnails :
  history_record (PDict {[ "thumbnails" := PList [PStr "https://i/1.jpg"] ]})
  = Raises AttributeError.
Proof. vm_compute. reflexivity. Qed.


(** ** Coherence of the cache with the disk *)

Section Coherence.
Context (P : platform).

(** The derivation reads the disk and nothing else, and changes nothing. *)
Lemma wrapped_reads_disk :
  ∃ f : pyval → outcome (option string),
    ∀ w, _get_cached_auth_string__wrapped P w = (f (stored P (disk w)), w).
Proof.
  eexists (λ v, if negb (truthy v) then Returns None else
                  h ← Py.get v "headers" PNone;
                  raw_lines ← collect_lines P (py_or h (PDict ∅)) AUTH_KEYS [];
                  if bool_decide (raw_lines = []) then Returns None
                  else handle ← setup P (join NL raw_lines);
                       mret (Some handle)).
  intros w. unfold _get_cached_auth_string__wrapped.
  unfold mbind at 1, M_bind at 1. rewrite load_headers_run.
  destruct (truthy (stored P (disk w))); [|reflexivity]. cbn [negb].
  run_M. destruct (Py.get _ "headers" PNone) as [h|e]; [|reflexivity].
  cbn [outcome_bind].
  destruct (collect_lines _ _ _ _) as [ls|e]; [|reflexivity].
  cbn [outcome_bind]. case_bool_decide; [reflexivity|].
  by destruct (setup P (join NL ls)).
Qed.

Lemma wrapped_same_disk (w1 w2 : world) :
  disk w1 = disk w2 →
  (_get_cached_auth_string__wrapped P w1).1
  = (_get_cached_auth_string__wrapped P w2).1.
Proof.
  intros Hdisk. destruct wrapped_reads_disk as [f Hf].
  by rewrite !Hf, Hdisk.
Qed.

Lemma coherent_empty (w : world) : lru w = None → coherent P w.
Proof. intros Hnone r Hr. congruence. Qed.

(** Reading the session keeps the cache coherent. *)
Lemma coherent_read (w w' : world) (o : outcome (option string)) :
  coherent P w → _get_cached_auth_string P w = (o, w') → coherent P w'.
Proof.
  intros Hco. unfold _get_cached_auth_string.
  destruct (lru w) as [r|] eqn:Hlru.
  - intros [= <- <-]. exact Hco.
  - destruct wrapped_reads_disk as [f Hf]. rewrite Hf.
    destruct (f (stored P (disk w))) as [r|e] eqn:Hr.
    + intros [= <- <-] r' Hr'. cbn in Hr'. injection Hr' as <-.
      rewrite Hf. cbn. exact Hr.
    + intros [= <- <-]. by apply coherent_empty.
Qed.

(** Ingest step by step: the save is refused before the file is touched,
    or breaks off after the file was truncated, or goes through; the slot
    of the cache is emptied in the last case only. *)
Lemma ingest_headers_run (payload : HeaderIngest) (cfg : Settings)
    (w : world) :
  let text := json_dump P (HeaderIngest_dict payload) in
  ingest_headers P payload (Some (ytm_client_token cfg)) cfg w =
  if opens (disk w) then
    if fits (disk w) text
    then (Returns (PStr "OK"),
          with_lru None
            (with_disk (with_dir (Dir (Regular text)) (disk w)) w))
    else (Raises (HTTPException 500 "Failed to save headers"),
          with_disk
            (with_dir (Dir (Regular (written (disk w) text))) (disk w)) w)
  else (Raises (HTTPException 500 "Failed to save headers"), w).
Proof.
  intros text. unfold ingest_headers. unfold mbind at 1, M_bind at 1.
  rewrite verify_token_valid. unfold mbind at 1, M_bind at 1.
  rewrite save_headers_run. fold text.
  destruct (opens (disk w)); [|reflexivity].
  destruct (fits (disk w) text) eqn:Hfits; [|reflexivity].
  by rewrite (written_fits _ _ Hfits).
Qed.

Lemma ingest_headers_taken (payload : HeaderIngest) (cfg : Settings)
    (w : world) :
  let text := json_dump P (HeaderIngest_dict payload) in
  takes_write (disk w) text = true →
  ingest_headers P payload (Some (ytm_client_token cfg)) cfg w
  = (Returns (PStr "OK"),
     with_lru None (with_disk (with_dir (Dir (Regular text)) (disk w)) w)).
Proof.
  intros text [Hopens Hfits]%andb_true_iff.
  pose proof (ingest_headers_run payload cfg w) as Hrun. cbv zeta in Hrun.
  fold text in Hrun. by rewrite Hopens, Hfits in Hrun.
Qed.

(** A successful ingest empties the slot: the cache is coherent with the
    new document. *)
Lemma coherent_ingest (payload : HeaderIngest) (cfg : Settings)
    (w w' : world) (body : pyval) :
  ingest_headers P payload (Some (ytm_client_token cfg)) cfg w
  = (Returns body, w') →
  lru w' = None ∧ coherent P w'.
Proof.
  rewrite ingest_headers_run. cbv zeta.
  destruct (opens (disk w)); [|discriminate].
  destruct (fits (disk w) _); [|discriminate].
  intros [= <- <-]. split; [reflexivity|]. by apply coherent_empty.
Qed.

Lemma disconnect_run (cfg : Settings) (w : world) :
  disconnect (Some (ytm_client_token cfg)) cfg w =
  match entry (disk w) with
  | Absent => (Returns (simple_response true "No headers to delete" None), w)
  | Unreadable =>
      (Raises (HTTPException 500
                 ("Failed to delete files: " +:+ strerror (disk w))), w)
  | Regular _ =>
      if locked (disk w)
      then (Raises (HTTPException 500
                      ("Failed to delete files: " +:+ strerror (disk w))), w)
      else (Returns (simple_response true "Deleted headers" None),
            with_disk (with_dir (Dir Absent) (disk w)) w)
  end.
Proof.
  unfold disconnect. unfold mbind at 1, M_bind at 1.
  rewrite verify_token_valid.
  unfold try_exceptM, entry, mbind, M_bind, os_path_exists, os_remove, raise,
    mret, M_ret.
  destruct w as [[lk msg t q] c]; cbn.
  destruct t as [|[| |text]]; try reflexivity. by destruct lk.
Qed.


Lemma fits_quota (st1 st2 : storage) (text : string) :
  quota st1 = quota st2 → fits st1 text = fits st2 text.
Proof. unfold fits. by intros ->. Qed.



(** A disconnect is harmless as long as nothing is cached. *)
Lemma coherent_disconnect_empty (cfg : Settings) (w : world) :
  lru w = None → coherent P (serve P cfg Disconnect w).
Proof.
  intros Hnone. apply coherent_empty. cbn [serve].
  rewrite disconnect_run.
  destruct (entry (disk w)); [done|done|]. by destruct (locked (disk w)).
Qed.

End Coherence.

(** C1, on the code: [disconnect] removes the document and leaves the slot
    of the cache as it is.  After an ingest of a document from which
    [setup] makes a handle, one read and disconnect, the next read still
    returns the handle of the document that is no longer on disk, and the
    cache is not coherent with the disk any more. *)
Theorem stale_handle_after_disconnect (P : platform) (doc : HeaderIngest)
    (cfg : Settings) (w : world) (handle : string) :
  codec_faithful P (HeaderIngest_dict doc) →
  takes_write (disk w) (json_dump P (HeaderIngest_dict doc)) = true →
  session_of P doc = Returns (Some handle) →
  let token := Some (ytm_client_token cfg) in
  ∃ w1 w2 w3,
    ingest_headers P doc token cfg w = (Returns (PStr "OK"), w1)
    ∧ _get_cached_auth_string P w1 = (Returns (Some handle), w2)
    ∧ coherent P w2
    ∧ disconnect token cfg w2
      = (Returns (simple_response true "Deleted headers" None), w3)
    ∧ serve_all P cfg [Ingest doc; Read; Disconnect] w = w3
    ∧ load_headers P w3 = (Returns PNone, w3)
    ∧ _get_cached_auth_string P w3 = (Returns (Some handle), w3)
    ∧ ¬ coherent P w3.
Proof.
  intros Hcodec Hwrite Hsession token. subst token.
  set (saved := with_dir (Dir (Regular (json_dump P (HeaderIngest_dict doc))))
                  (disk w)).
  set (w1 := with_lru None (with_disk saved w)).
  set (w2 := with_lru (Some (Some handle)) w1).
  set (w3 := with_disk (with_dir (Dir Absent) (disk w2)) w2).
  assert (Hdoc : on_disk P doc w1).
  { unfold on_disk, stored, entry. cbn. by rewrite Hcodec. }
  assert (Hread : _get_cached_auth_string P w1 = (Returns (Some handle), w2)).
  { rewrite (cached_miss P doc w1 Hdoc eq_refl), Hsession. reflexivity. }
  assert (Hlocked : locked (disk w) = false).
  { unfold takes_write, opens in Hwrite. by destruct (locked (disk w)). }
  assert (Hingest : ingest_headers P doc (Some (ytm_client_token cfg)) cfg w
                    = (Returns (PStr "OK"), w1)).
  { by apply ingest_headers_taken. }
  assert (Hdel : disconnect (Some (ytm_client_token cfg)) cfg w2
                 = (Returns (simple_response true "Deleted headers" None), w3)).
  { rewrite disconnect_run. unfold entry. cbn. by rewrite Hlocked. }
  exists w1, w2, w3.
  split; [exact Hingest|].
  split; [exact Hread|].
  split; [eapply coherent_read; [|exact Hread]; by apply coherent_empty|].
  split; [exact Hdel|].
  split.
  { cbn [serve_all foldl serve]. rewrite Hingest. cbn [snd].
    rewrite Hread. cbn [snd]. by rewrite Hdel. }
  split; [by rewrite load_headers_run|].
  split; [by apply cached_hit|].
  intros Hco. specialize (Hco (Some handle) eq_refl).
  unfold _get_cached_auth_string__wrapped in Hco.
  unfold mbind at 1, M_bind at 1 in Hco.
  rewrite load_headers_run in Hco. discriminate Hco.
Qed.

Lemma stale_handle_after_disconnect_witness :
  let P := Sample.platform_of Sample.empty_account in
  let doc := Sample.doc_account "0" in
  let handle := Sample.raw_account "0" in
  setup P handle = Returns handle
  ∧ ∃ w1 w2 w3,
    ingest_headers P doc (Some "dev-token") settings Sample.fresh
    = (Returns (PStr "OK"), w1)
    ∧ _get_cached_auth_string P w1 = (Returns (Some handle), w2)
    ∧ coherent P w2
    ∧ disconnect (Some "dev-token") settings w2
      = (Returns (simple_response true "Deleted headers" None), w3)
    ∧ serve_all P settings [Ingest doc; Read; Disconnect] Sample.fresh = w3
    ∧ load_headers P w3 = (Returns PNone, w3)
    ∧ _get_cached_auth_string P w3 = (Returns (Some handle), w3)
    ∧ ¬ coherent P w3.
Proof.
  intros P doc handle. split; [vm_compute; reflexivity|].
  apply (stale_handle_after_disconnect P doc settings Sample.fresh handle);
    vm_compute; reflexivity.
Defined.

End YtmRouterFacts.

(* ===================================================================== *)
(** * Slugs in normal form                                              *)
(* ===================================================================== *)

Module SlugFacts.
Import Py UtilsService UtilsSpec UtilsServiceFacts.

Lemma lstrip_head (p : ascii → bool) (s : string) :
  starts_with p (lstrip p s) = false.
Proof.
  induction s as [|c r IH]; [done|]. cbn [lstrip].
  destruct (p c) eqn:Hc; [exact IH|]. cbn. exact Hc.
Qed.

Lemma rstrip_cons (p : ascii → bool) (c : ascii) (r : string) :
  rstrip p (String c r)
  = if String.eqb (rstrip p r) "" then (if p c then "" else String c "")
    else String c (rstrip p r).
Proof. cbn [rstrip]. by destruct (rstrip p r). Qed.

Lemma rstrip_last (p : ascii → bool) (s : string) :
  ends_with p (rstrip p s) = false.
Proof.
  induction s as [|c r IH]; [done|]. rewrite rstrip_cons.
  destruct (rstrip p r) as [|c' r'] eqn:E; cbn [String.eqb].
  - destruct (p c) eqn:Hc; [done|]. cbn. exact Hc.
  - cbn [ends_with]. exact IH.
Qed.

Lemma rstrip_head (p : ascii → bool) (s : string) :
  starts_with p s = false → starts_with p (rstrip p s) = false.
Proof.
  destruct s as [|c r]; [done|]. cbn [starts_with]. intros Hc.
  rewrite rstrip_cons. destruct (String.eqb _ ""); [|done]. by rewrite Hc.
Qed.

Lemma no_double_dash_lstrip (p : ascii → bool) (s : string) :
  no_double_dash s = true → no_double_dash (lstrip p s) = true.
Proof.
  induction s as [|c r IH]; [done|]. cbn [lstrip].
  destruct (p c); [|done]. cbn [no_double_dash].
  intros [_ Hr]%andb_true_iff. by apply IH.
Qed.

Lemma starts_with_rstrip (p q : ascii → bool) (s : string) :
  starts_with q (rstrip p s) = true → starts_with q s = true.
Proof.
  destruct s as [|c r]; [done|]. rewrite rstrip_cons.
  destruct (String.eqb _ ""); [|done]. by destruct (p c).
Qed.

Lemma no_double_dash_rstrip (p : ascii → bool) (s : string) :
  no_double_dash s = true → no_double_dash (rstrip p s) = true.
Proof.
  induction s as [|c r IH]; [done|]. cbn [no_double_dash].
  intros [Hc Hr]%andb_true_iff. specialize (IH Hr). rewrite rstrip_cons.
  destruct (String.eqb (rstrip p r) "") eqn:E.
  - destruct (p c); cbn; [done|]. by rewrite andb_false_r.
  - cbn [no_double_dash]. rewrite IH, andb_true_r.
    destruct (is_dash c); [|done]. cbn in *.
    destruct (starts_with is_dash (rstrip p r)) eqn:Hs; [|done].
    apply starts_with_rstrip in Hs. by rewrite Hs in Hc.
Qed.

(** The substitution leaves single dashes only, and none in front when the
    text before it already ended in one. *)
Lemma slug_re_sub_dashes (in_run : bool) (s : string) :
  no_double_dash (_slug_re_sub in_run s) = true
  ∧ (in_run = true → starts_with is_dash (_slug_re_sub in_run s) = false).
Proof.
  revert in_run. induction s as [|c r IH]; intros in_run; [done|].
  cbn [_slug_re_sub]. destruct (is_slug_char c) eqn:Hc.
  - destruct (IH false) as [Hnd _]. cbn [no_double_dash starts_with].
    assert (is_dash c = false) as Hd.
    { unfold is_dash, is_slug_char in *.
      destruct (ord c =? 45)%N eqn:E; [|done].
      apply N.eqb_eq in E. rewrite E in Hc. done. }
    by rewrite Hd, Hnd.
  - destruct (IH true) as [Hnd Hhead]. destruct in_run.
    + split; [exact Hnd|]. intros _. by apply Hhead.
    + split; [|done]. cbn [no_double_dash]. by rewrite Hhead, andb_false_r, Hnd.
Qed.

Lemma slugify_shape (text : string) :
  let s := strip is_dash (_slug_re_sub false (lower (strip is_space text))) in
  all_chars is_slug_or_dash s = true
  ∧ starts_with is_dash s = false
  ∧ ends_with is_dash s = false
  ∧ no_double_dash s = true.
Proof.
  intros s. unfold s, strip. repeat split.
  - apply all_chars_rstrip, all_chars_lstrip,
      all_chars_slug_re_sub.
  - apply rstrip_head, lstrip_head.
  - apply rstrip_last.
  - apply no_double_dash_rstrip, no_double_dash_lstrip, slug_re_sub_dashes.
Qed.

Lemma slugify_output_clean (text : string) : clean (slugify text) = true.
Proof.
  pose proof (slugify_shape text) as (Ha & Hs & He & Hd).
  unfold slugify. cbv zeta in *.
  destruct (String.eqb _ "") eqn:E; [reflexivity|].
  unfold clean. by rewrite E, Ha, Hs, He, Hd.
Qed.

(** On a clean slug every step of [slugify] is the identity. *)
Lemma lstrip_id (p : ascii → bool) (s : string) :
  starts_with p s = false → lstrip p s = s.
Proof. destruct s as [|c r]; [done|]. cbn. by intros ->. Qed.

Lemma rstrip_id (p : ascii → bool) (s : string) :
  ends_with p s = false → rstrip p s = s.
Proof.
  induction s as [|c r IH]; [done|]. cbn [ends_with]. rewrite rstrip_cons.
  destruct r as [|c' r'].
  - cbn. by intros ->.
  - intros H. rewrite (IH H). done.
Qed.

Lemma slug_char_fixed (c : ascii) :
  is_slug_or_dash c = true → is_space c = false ∧ lower_char c = c.
Proof.
  destruct c as [[] [] [] [] [] [] [] []]; vm_compute;
    intros H; try discriminate H; split; reflexivity.
Qed.

Lemma lower_id (s : string) :
  all_chars is_slug_or_dash s = true → lower s = s.
Proof.
  induction s as [|c r IH]; [done|]. cbn [all_chars lower].
  intros [Hc Hr]%andb_true_iff.
  destruct (slug_char_fixed c Hc) as [_ ->]. by rewrite IH.
Qed.

Lemma all_chars_weaken (p q : ascii → bool) (s : string) :
  (∀ c, p c = true → q c = false) →
  all_chars p s = true → starts_with q s = false ∧ ends_with q s = false.
Proof.
  intros Hpq. induction s as [|c r IH]; [done|]. cbn [all_chars].
  intros [Hc Hr]%andb_true_iff. destruct (IH Hr) as [_ He].
  split; [by apply Hpq|]. cbn [ends_with].
  destruct r; [by apply Hpq | exact He].
Qed.

Lemma is_dash_eq (c : ascii) : is_dash c = true → c = "-"%char.
Proof.
  destruct c as [[] [] [] [] [] [] [] []]; vm_compute;
    intros H; try discriminate H; reflexivity.
Qed.

Lemma slug_re_sub_id (in_run : bool) (s : string) :
  all_chars is_slug_or_dash s = true →
  no_double_dash s = true →
  (in_run = true → starts_with is_dash s = false) →
  _slug_re_sub in_run s = s.
Proof.
  revert in_run. induction s as [|c r IH]; intros in_run; [done|].
  cbn [all_chars no_double_dash _slug_re_sub starts_with].
  intros [Hc Hr]%andb_true_iff [Hcd Hnd]%andb_true_iff Hrun.
  destruct (is_slug_char c) eqn:Hs.
  - f_equal. apply IH; [exact Hr | exact Hnd | discriminate].
  - assert (Hd : is_dash c = true).
    { unfold is_slug_or_dash in Hc. by rewrite Hs in Hc. }
    destruct in_run; [by rewrite Hrun in Hd|].
    rewrite Hd in Hcd. cbn in Hcd.
    rewrite (is_dash_eq c Hd). f_equal.
    apply IH; [exact Hr | exact Hnd |]. intros _.
    by destruct (starts_with is_dash r).
Qed.

Lemma clean_fixed (s : string) : clean s = true → slugify s = s.
Proof.
  unfold clean.
  intros [[[[Hne Ha]%andb_true_iff Hs]%andb_true_iff He]%andb_true_iff
          Hd]%andb_true_iff.
  apply negb_true_iff in Hne, Hs, He.
  destruct (all_chars_weaken is_slug_or_dash is_space s) as [Hws Hwe];
    [intros c Hc; by destruct (slug_char_fixed c Hc) | exact Ha |].
  unfold slugify, strip.
  rewrite (lstrip_id is_space s Hws), (rstrip_id is_space s Hwe).
  rewrite (lower_id s Ha).
  rewrite (slug_re_sub_id false s Ha Hd) by done.
  rewrite (lstrip_id is_dash s Hs), (rstrip_id is_dash s He).
  by rewrite Hne.
Qed.

(** X1: whatever the text, [slugify] returns a slug in normal form: not
    empty, made of [a-z], [0-9] and dashes, with no dash at either end and
    no two dashes in a row. *)
Theorem slugify_normal_form (text : string) : clean (slugify text) = true.
Proof. apply slugify_output_clean. Qed.

(** X2: [slugify] is idempotent: a slug is its own slug. *)
Theorem slugify_idempotent (text : string) :
  slugify (slugify text) = slugify text.
Proof. apply clean_fixed, slugify_output_clean. Qed.

(** X3: the texts [slugify] leaves unchanged are exactly the slugs in
    normal form; the placeholder ["n-a"] is one of them. *)
Theorem slugify_fixed_points (s : string) :
  slugify s = s ↔ clean s = true.
Proof.
  split.
  - intros H. rewrite <- H. apply slugify_output_clean.
  - apply clean_fixed.
Qed.

End SlugFacts.

(* ===================================================================== *)
(** * Code generation: edge cases, composition, the command-line script *)
(* ===================================================================== *)

Module CodeGenerationFacts.
Import Py Config CodeService CodeScript CodeSpec CodeServiceFacts.

Lemma choices_append (n m : nat) (A : string) (g : entropy) :
  choices (n + m) A g =
  match choices n A g with
  | (Returns s1, g1) =>
      match choices m A g1 with
      | (Returns s2, g2) => (Returns (s1 +:+ s2), g2)
      | (Raises e, g2) => (Raises e, g2)
      end
  | (Raises e, g1) => (Raises e, g1)
  end.
Proof.
  revert g. induction n as [|n IH]; intros g.
  - cbn. by destruct (choices m A g) as [[s2|e] g2].
  - cbn [Nat.add choices]. destruct (choice A g) as [[c|e] g1]; [|done].
    rewrite IH. destruct (choices n A g1) as [[s1|e] g2]; [|done].
    by destruct (choices m A g2) as [[s2|e] g3].
Qed.

(** X4: the degenerate calls of [generate_code].  A length of zero or
    below gives the empty code, over an empty alphabet too, and draws
    nothing; a positive length over the empty alphabet raises
    [IndexError] at the first draw, as [secrets.choice] does. *)
Theorem generate_code_degenerate (n : Z) (A : string) (g : entropy) :
  n ≤ 0 ∨ A = "" →
  generate_code n A g
  = (if n <=? 0 then Returns "" else Raises IndexError, g).
Proof.
  intros H. destruct (Z.leb_spec n 0) as [Hn|Hn].
  - by apply generate_code_negative.
  - destruct H as [H| ->]; [lia|]. by apply generate_code_empty_alphabet.
Qed.

Lemma generate_code_degenerate_witness :
  generate_code (-3) DEFAULT_ALPHABET (λ i, i) = (Returns "", λ i, i)
  ∧ generate_code 4 "" (λ i, i) = (Raises IndexError, λ i, i).
Proof.
  split.
  - apply (generate_code_degenerate (-3) DEFAULT_ALPHABET (λ i, i)).
    left. lia.
  - apply (generate_code_degenerate 4 "" (λ i, i)). right. reflexivity.
Defined.

(** X5: a code of [n + m] characters is a code of [n] followed by a code of
    [m] drawn from what the first left of the entropy. *)
Theorem generate_code_append (n m : Z) (A : string) (g : entropy) :
  0 ≤ n → 0 ≤ m →
  generate_code (n + m) A g =
  match generate_code n A g with
  | (Returns s1, g1) =>
      match generate_code m A g1 with
      | (Returns s2, g2) => (Returns (s1 +:+ s2), g2)
      | (Raises e, g2) => (Raises e, g2)
      end
  | (Raises e, g1) => (Raises e, g1)
  end.
Proof.
  intros Hn Hm. unfold generate_code.
  rewrite Z2Nat.inj_add by lia. apply choices_append.
Qed.

Lemma generate_code_append_witness :
  (generate_code (2 + 2) DEFAULT_ALPHABET (λ i, 7 * i + 3)%nat).1
  = Returns ("5C" +:+ "KS").
Proof.
  rewrite (generate_code_append 2 2) by lia. vm_compute. reflexivity.
Defined.

Lemma choice_push (A : string) (i : nat) (g : entropy) (a : ascii)
    (cs : list ascii) :
  letters A = a :: cs → (i < length (a :: cs))%nat →
  choice A (push i g) = (Returns (nth i (a :: cs) a), g).
Proof.
  intros EA Hi. unfold choice. rewrite EA. cbn [draw push].
  by rewrite Nat.mod_small.
Qed.

(** X6: every text over the alphabet can come out: some entropy makes
    [generate_code] return it. *)
Theorem generate_code_reaches (A s : string) :
  Forall (λ c, c ∈ letters A) (letters s) →
  ∃ g, (generate_code (Z.of_nat (String.length s)) A g).1 = Returns s.
Proof.
  unfold generate_code. rewrite Nat2Z.id.
  induction s as [|c s IH]; intros Hall.
  - exists (λ _, 0%nat). reflexivity.
  - cbn [letters String.list_ascii_of_string] in Hall.
    apply Forall_cons in Hall as [Hc Hs].
    destruct (IH Hs) as [g Hg].
    apply list_elem_of_In in Hc.
    destruct (letters A) as [|a cs] eqn:EA; [done|].
    destruct (In_nth _ _ a Hc) as (i & Hi & Hnth).
    exists (push i g). cbn [String.length choices].
    rewrite (choice_push A i g a cs EA Hi), Hnth.
    destruct (choices (String.length s) A g) as [[s'|e] g'];
      cbn in Hg; [|discriminate]. by injection Hg as ->.
Qed.

Lemma generate_code_reaches_witness :
  ∃ g, (generate_code (Z.of_nat (String.length "A7KQ")) DEFAULT_ALPHABET g).1
       = Returns "A7KQ".
Proof.
  apply (generate_code_reaches DEFAULT_ALPHABET "A7KQ").
  repeat constructor; apply bool_decide_unpack; vm_compute; exact I.
Defined.

(** X7: [GET /codes/one] never fails, whatever the settings: an empty
    configured alphabet falls back to the default one, a negative length
    gives the empty code. *)
Theorem get_one_code_total (cfg : Settings) (g : entropy) :
  ∃ code g',
    CodeRouter.get_one_code cfg g
    = (Returns (PDict {[ "code" := PStr code ]}), g')
    ∧ String.length code = Z.to_nat (code_length cfg)
    ∧ Forall (λ c, c ∈ letters (CodeRouter.alphabet_of cfg)) (letters code)
    ∧ CodeRouter.alphabet_of cfg
      = if String.eqb (code_alphabet cfg) "" then DEFAULT_ALPHABET
        else code_alphabet cfg.
Proof.
  assert (Hne : CodeRouter.alphabet_of cfg ≠ "").
  { unfold CodeRouter.alphabet_of.
    destruct (String.eqb (code_alphabet cfg) "") eqn:E; [discriminate|].
    intros H. rewrite H in E. discriminate. }
  destruct (choices_spec (Z.to_nat (code_length cfg))
              (CodeRouter.alphabet_of cfg) g Hne) as (code & Hcode & Hlen & Hall).
  exists code. eexists. unfold CodeRouter.get_one_code, generate_code.
  rewrite Hcode. done.
Qed.

Lemma alphabet_not_confusing :
  Forall (λ c, confusing c = false) (letters ALPHABET).
Proof.
  apply Forall_forall. intros c Hc. apply list_elem_of_In in Hc.
  assert (H : forallb (λ c, negb (confusing c)) (letters ALPHABET) = true)
    by (vm_compute; reflexivity).
  rewrite forallb_forall in H. apply negb_true_iff. by apply H.
Qed.

Lemma codes_spec (k : nat) (g : entropy) :
  ∃ cs, codes k g = (Returns cs, λ i, g (k * 4 + i)%nat)
        ∧ length cs = k
        ∧ Forall (λ code, String.length code = 4%nat
                          ∧ Forall (λ c, c ∈ letters ALPHABET) (letters code))
            cs.
Proof.
  revert g. induction k as [|k IH]; intros g.
  - exists []. repeat split; constructor.
  - destruct (choices_spec 4 ALPHABET g) as (code & Hcode & Hlen & Hall);
      [discriminate|].
    destruct (IH (λ i, g (4 + i)%nat)) as (cs & Hcs & Hk & Hshape).
    exists (code :: cs). cbn [codes].
    change (Z.to_nat CODE_LEN) with 4%nat. rewrite Hcode, Hcs.
    split; [reflexivity|]. split; [cbn; congruence | by constructor].
Qed.

(** X8: [generate_codes count] returns [max(1, count)] codes, at least one
    even for a count of zero or below; each has four characters of the
    alphabet and none of the characters 0, 1, I, O.  The server's route
    therefore always finds its [[0]]. *)
Theorem generate_codes_shape (count : Z) (g : entropy) :
  ∃ cs g',
    generate_codes count g = (Returns cs, g')
    ∧ Z.of_nat (length cs) = Z.max 1 count
    ∧ Forall (λ code,
        String.length code = 4%nat
        ∧ Forall (λ c, c ∈ letters ALPHABET ∧ confusing c = false)
            (letters code)) cs
    ∧ ∃ code g'', get_code g = (Returns (PDict {[ "code" := PStr code ]}), g'')
                  ∧ String.length code = 4%nat.
Proof.
  unfold generate_codes.
  destruct (codes_spec (Z.to_nat (Z.max 1 count)) g) as (cs & Hcs & Hlen & Hall).
  exists cs. eexists. split; [exact Hcs|]. split; [lia|]. split.
  - eapply Forall_impl; [exact Hall|]. intros code [H4 Hin]. split; [exact H4|].
    apply Forall_forall. intros c Hc. split.
    + by eapply Forall_forall in Hin.
    + eapply Forall_forall in Hin; [|exact Hc].
      by eapply Forall_forall in Hin; [|apply alphabet_not_confusing].
  - unfold get_code, generate_codes.
    destruct (codes_spec (Z.to_nat (Z.max 1 1)) g) as (cs1 & Hcs1 & Hlen1 & Hall1).
    rewrite Hcs1. destruct cs1 as [|code rest]; [discriminate|].
    apply Forall_cons in Hall1 as [[H4 _] _]. eauto.
Qed.

End CodeGenerationFacts.

(* ===================================================================== *)
(** * The routes of the header bridge                                   *)
(* ===================================================================== *)

Module YtmRoutesFacts.
Import Py Config YtmRouter YtmSpec YtmSpecMore YtmRouterFacts.

Lemma verify_token_refuses {A} (token : option string) (cfg : Settings)
    (k : unit → M A) (w : world) :
  token ≠ Some (ytm_client_token cfg) →
  (verify_token token cfg ≫= k) w
  = (Raises (HTTPException 401 "Invalid token"), w).
Proof.
  intros Htoken. unfold mbind, M_bind.
  by rewrite (verify_token_invalid token cfg w Htoken).
Qed.

Section Gate.
Context (P : platform).

(** X9: without the shared secret every route of the bridge answers 401 and
    touches nothing: the file, the cache and the client are left alone. *)
Theorem unauthorized_touches_nothing (token : option string) (cfg : Settings)
    (payload : HeaderIngest) (limit : Z) (query : string) (w : world) :
  token ≠ Some (ytm_client_token cfg) →
  let refused := (Raises (HTTPException 401 "Invalid token"), w) in
  ingest_headers P payload token cfg w = refused
  ∧ validate_connection P token cfg w = refused
  ∧ get_history P limit token cfg w = refused
  ∧ get_library P token cfg w = refused
  ∧ search_music P query token cfg w = refused
  ∧ disconnect token cfg w = refused.
Proof.
  intros Htoken refused.
  split; [by apply verify_token_refuses|]. split; [by apply verify_token_refuses|].
  split; [by apply verify_token_refuses|]. split; [by apply verify_token_refuses|].
  split; by apply verify_token_refuses.
Qed.

End Gate.

Lemma unauthorized_touches_nothing_witness :
  let P := Sample.platform_of Sample.listener in
  let w := Sample.holding Sample.doc_authorization in
  get_history P 50 None settings w
    = (Raises (HTTPException 401 "Invalid token"), w)
  ∧ disconnect (Some "guess") settings w
    = (Raises (HTTPException 401 "Invalid token"), w).
Proof.
  intros P w.
  destruct (unauthorized_touches_nothing P None settings
              Sample.doc_authorization 50 "" w ltac:(discriminate))
    as (_ & _ & Hh & _).
  destruct (unauthorized_touches_nothing P (Some "guess") settings
              Sample.doc_authorization 50 "" w ltac:(discriminate))
    as (_ & _ & _ & _ & _ & Hd).
  split; [exact Hh | exact Hd].
Defined.

Section StoreMore.
Context (P : platform).




(** X24: a write that breaks off leaves a cached handle behind.  When the
    slot holds a handle and an ingest fails after the file was truncated,
    to a text that does not parse, the document is gone ([load_headers]
    returns [None]), yet the next read of the session still returns the
    cached handle: the cache is not coherent with the disk. *)
Theorem stale_handle_after_broken_write (payload : HeaderIngest)
    (cfg : Settings) (w : world) (handle : string) (e : exn) :
  let text := json_dump P (HeaderIngest_dict payload) in
  lru w = Some (Some handle) →
  opens (disk w) = true →
  fits (disk w) text = false →
  json_load P (written (disk w) text) = Raises e →
  ∃ w',
    ingest_headers P payload (Some (ytm_client_token cfg)) cfg w
    = (Raises (HTTPException 500 "Failed to save headers"), w')
    ∧ load_headers P w' = (Returns PNone, w')
    ∧ _get_cached_auth_string P w' = (Returns (Some handle), w')
    ∧ ¬ coherent P w'.
Proof.
  intros text Hlru Hopens Hfits Hload.
  pose proof (ingest_headers_run P payload cfg w) as Hrun.
  cbv zeta in Hrun. fold text in Hrun. rewrite Hopens, Hfits in Hrun.
  eexists. split; [exact Hrun|].
  assert (Hstored : ∀ w', disk w' = with_dir (Dir (Regular (written (disk w) text)))
                                      (disk w) →
                          stored P (disk w') = PNone).
  { intros w' ->. unfold stored, entry. cbn. by rewrite Hload. }
  split; [rewrite load_headers_run; by rewrite Hstored|].
  split; [by apply cached_hit|].
  intros Hco. specialize (Hco (Some handle) Hlru).
  unfold _get_cached_auth_string__wrapped in Hco.
  unfold mbind at 1, M_bind at 1 in Hco.
  rewrite load_headers_run, Hstored in Hco by reflexivity.
  discriminate Hco.
Qed.

Lemma ingest_success (payload : HeaderIngest) (cfg : Settings) (w : world) :
  let text := json_dump P (HeaderIngest_dict payload) in
  takes_write (disk w) text = true →
  ∃ w', ingest_headers P payload (Some (ytm_client_token cfg)) cfg w
        = (Returns (PStr "OK"), w')
        ∧ lru w' = None
        ∧ opens (disk w') = true
        ∧ quota (disk w') = quota (disk w)
        ∧ entry (disk w') = Regular text.
Proof.
  intros text H. rewrite (ingest_headers_taken P payload cfg w H).
  eexists. split; [reflexivity|]. split; [reflexivity|].
  split; [|split; reflexivity].
  apply andb_true_iff in H as [H _].
  unfold opens in *. cbn. by destruct (locked (disk w)).
Qed.

(** X12: after a successful ingest the document is the one on disk, and
    the next read of the session derives the session of the new
    document, whatever the cache held before: the handle [setup] returns
    is returned and cached; the exception with which [setup] refuses the
    header text leaves the read, and nothing is cached. *)
Theorem ingest_then_session (doc : HeaderIngest) (cfg : Settings) (w : world) :
  takes_write (disk w) (json_dump P (HeaderIngest_dict doc)) = true →
  codec_faithful P (HeaderIngest_dict doc) →
  let w1 := (ingest_headers P doc (Some (ytm_client_token cfg)) cfg w).2 in
  on_disk P doc w1
  ∧ _get_cached_auth_string P w1
    = match session_of P doc with
      | Returns r => (Returns r, with_lru (Some r) w1)
      | Raises e => (Raises e, w1)
      end.
Proof.
  intros Hw Hcodec w1.
  destruct (ingest_success doc cfg w Hw)
    as (w' & Hing & Hlru & _ & _ & Hentry).
  subst w1. rewrite Hing. cbn [snd].
  assert (Hdoc : on_disk P doc w').
  { unfold on_disk, stored. by rewrite Hentry, Hcodec. }
  split; [exact Hdoc|]. by apply cached_miss.
Qed.

(** X13: ingest overwrites wholesale: after two successful ingests the
    file holds the second document, and the session read next is the
    session of the second document, what [setup] returns or raises for
    its header text. *)
Theorem last_ingest_wins (doc1 doc2 : HeaderIngest) (cfg : Settings)
    (w : world) :
  takes_write (disk w) (json_dump P (HeaderIngest_dict doc1)) = true →
  takes_write (disk w) (json_dump P (HeaderIngest_dict doc2)) = true →
  codec_faithful P (HeaderIngest_dict doc2) →
  let token := Some (ytm_client_token cfg) in
  ∃ w1 w2,
    ingest_headers P doc1 token cfg w = (Returns (PStr "OK"), w1)
    ∧ ingest_headers P doc2 token cfg w1 = (Returns (PStr "OK"), w2)
    ∧ load_headers P w2 = (Returns (HeaderIngest_dict doc2), w2)
    ∧ (_get_cached_auth_string P w2).1 = session_of P doc2.
Proof.
  intros Hw1 Hw2 Hcodec token. subst token.
  destruct (ingest_success doc1 cfg w Hw1)
    as (w1 & Hing1 & _ & Hopens & Hquota & _).
  assert (Hw2' : takes_write (disk w1) (json_dump P (HeaderIngest_dict doc2))
                 = true).
  { apply andb_true_iff in Hw2 as [_ Hfits]. unfold takes_write.
    by rewrite Hopens, (fits_quota _ (disk w) _ Hquota), Hfits. }
  destruct (ingest_success doc2 cfg w1 Hw2')
    as (w2 & Hing2 & Hlru & _ & _ & He).
  assert (Hdoc : on_disk P doc2 w2).
  { unfold on_disk, stored. by rewrite He, Hcodec. }
  exists w1, w2. split; [exact Hing1|]. split; [exact Hing2|]. split.
  - rewrite load_headers_run. by rewrite Hdoc.
  - by apply cached_miss_outcome.
Qed.

End StoreMore.

(** X14: after a disconnect that succeeded nothing is left on disk, and a
    second disconnect reports that there is nothing to delete and changes
    nothing; a disconnect that failed (500) has changed nothing. *)
Theorem disconnect_idempotent (P : platform) (cfg : Settings) (w : world) :
  let token := Some (ytm_client_token cfg) in
  match disconnect token cfg w with
  | (Returns _, w1) =>
      load_headers P w1 = (Returns PNone, w1)
      ∧ disconnect token cfg w1
        = (Returns (simple_response true "No headers to delete" None), w1)
  | (Raises e, w1) => w1 = w ∧ status (Raises (A:=pyval) e) = 500
  end.
Proof.
  cbv zeta. rewrite disconnect_run.
  destruct w as [[lk msg t q] c]. unfold entry. cbn.
  destruct t as [|[| |text]]; cbn.
  - rewrite load_headers_run, disconnect_run. done.
  - rewrite load_headers_run, disconnect_run. done.
  - done.
  - destruct lk; [done|]. rewrite load_headers_run, disconnect_run. done.
Qed.

Section Queries.
Context (P : platform).

Lemma read_final_state (w : world) :
  ∃ c, (_get_cached_auth_string P w).2 = with_lru c w
       ∧ (lru w = None ∨ c = lru w).
Proof.
  unfold _get_cached_auth_string. destruct (lru w) as [r|] eqn:Hlru.
  - exists (Some r). split; [|by right]. destruct w. cbn in *. by subst.
  - destruct (wrapped_reads_disk P) as [f Hf]. rewrite Hf.
    destruct (f (stored P (disk w))) as [r|e]; cbn.
    + exists (Some r). by split; [|left].
    + exists None. split; [|by left]. destruct w. cbn in *. by subst.
Qed.

Lemma make_yt_final_state (w : world) :
  (_make_yt P w).2 = (_get_cached_auth_string P w).2.
Proof.
  rewrite make_yt_run.
  by destruct (_get_cached_auth_string P w) as [[[a|]|e] w'].
Qed.

(** Where a query route leaves the process: as it was, or as one read of
    the session leaves it. *)
Lemma query_final_state (token : option string) (cfg : Settings)
    (limit : Z) (query : string) (w : world) :
  let after := λ w', w' = w ∨ w' = (_get_cached_auth_string P w).2 in
  after (validate_connection P token cfg w).2
  ∧ after (get_history P limit token cfg w).2
  ∧ after (get_library P token cfg w).2
  ∧ after (search_music P query token cfg w).2.
Proof.
  intros after. unfold after.
  destruct (decide (token = Some (ytm_client_token cfg))) as [->|Hne].
  - rewrite validate_connection_run, get_history_run, get_library_run,
      search_music_run, <- make_yt_final_state.
    destruct (_make_yt P w) as [[[yt|]|e] w']; cbn [snd]; auto.
  - unfold validate_connection, get_history, get_library, search_music.
    rewrite !verify_token_refuses by done. cbn [snd]. auto.
Qed.

(** X15: the four query routes never write to the storage medium, whatever the
    token, the state and the upstream answer. *)
Theorem queries_never_write (token : option string) (cfg : Settings)
    (limit : Z) (query : string) (w : world) :
  disk (validate_connection P token cfg w).2 = disk w
  ∧ disk (get_history P limit token cfg w).2 = disk w
  ∧ disk (get_library P token cfg w).2 = disk w
  ∧ disk (search_music P query token cfg w).2 = disk w.
Proof.
  destruct (query_final_state token cfg limit query w) as (Hv & Hh & Hl & Hs).
  destruct (read_final_state w) as (c & Hc & _).
  rewrite Hc in Hv, Hh, Hl, Hs.
  split; [by destruct Hv as [-> | ->]|]. split; [by destruct Hh as [-> | ->]|].
  split; [by destruct Hl as [-> | ->] | by destruct Hs as [-> | ->]].
Qed.

(** X16: the query routes keep the cache coherent with the disk: if the cached
    handle was the one of the document on disk before the request, it is
    so after it. *)
Theorem queries_keep_coherence (token : option string) (cfg : Settings)
    (limit : Z) (query : string) (w : world) :
  coherent P w →
  coherent P (validate_connection P token cfg w).2
  ∧ coherent P (get_history P limit token cfg w).2
  ∧ coherent P (get_library P token cfg w).2
  ∧ coherent P (search_music P query token cfg w).2.
Proof.
  intros Hco.
  destruct (query_final_state token cfg limit query w) as (Hv & Hh & Hl & Hs).
  assert (Hread : coherent P (_get_cached_auth_string P w).2).
  { destruct (_get_cached_auth_string P w) as [o w'] eqn:E.
    by eapply coherent_read. }
  split; [by destruct Hv as [-> | ->]|]. split; [by destruct Hh as [-> | ->]|].
  split; [by destruct Hl as [-> | ->] | by destruct Hs as [-> | ->]].
Qed.

(** X17: what a read of the session returned, absent included, every later
    read returns, whatever becomes of the file in between: only
    [cache_clear] makes the file be read again. *)
Theorem cache_insulates_from_disk (r : option string) (w w' : world)
    (st : storage) :
  _get_cached_auth_string P w = (Returns r, w') →
  _get_cached_auth_string P (with_disk st w') = (Returns r, with_disk st w')
  ∧ (_get_cached_auth_string P (cache_clear (with_disk st w')).2).1
    = (_get_cached_auth_string__wrapped P (with_disk st w')).1.
Proof.
  intros Hread.
  assert (Hslot : lru w' = Some r).
  { unfold _get_cached_auth_string in Hread.
    destruct (lru w) as [r0|] eqn:Hlru.
    - injection Hread as <- <-. exact Hlru.
    - destruct (_get_cached_auth_string__wrapped P w) as [[r0|e] w0];
        [|discriminate].
      by injection Hread as <- <-. }
  split; [by apply cached_hit|].
  unfold cache_clear, _get_cached_auth_string. cbn [snd lru with_lru].
  destruct (wrapped_reads_disk P) as [f Hf]. rewrite !Hf. cbn.
  by destruct (f (stored P st)).
Qed.

End Queries.

Section Validation.

Lemma format_sample_mapM (i : Z) (sample acc : list pyval) :
  format_sample i sample acc
  = (records ← mapM (λ p, sample_record p.1 p.2)
                 (filter (λ p, is_dict p.2 = true) (numbered i sample));
     mret (acc ++ records)%list).
Proof.
  revert i acc. induction sample as [|item sample IH]; intros i acc.
  - cbn. by rewrite app_nil_r.
  - cbn [format_sample numbered]. destruct (is_dict item) eqn:Hd; cbn [negb].
    + rewrite filter_cons_True by done. rewrite mapM_cons. cbn [fst snd].
      destruct (sample_record i item) as [r|e]; [|reflexivity]. cbn.
      rewrite IH.
      destruct (mapM _ _) as [rs|e]; [|reflexivity]. cbn.
      by rewrite <- app_assoc.
    + rewrite filter_cons_False by (cbn; rewrite Hd; discriminate). apply IH.
Qed.

Lemma numbered_spec (i j : Z) (sample : list pyval) (item : pyval) :
  (j, item) ∈ numbered i sample →
  i ≤ j < i + Z.of_nat (length sample)
  ∧ sample !! Z.to_nat (j - i) = Some item.
Proof.
  revert i. induction sample as [|x sample IH]; intros i; cbn [numbered].
  - intros H. by apply elem_of_nil in H.
  - intros [[= -> ->]|H]%elem_of_cons.
    + split; [cbn [length]; lia|]. by rewrite Z.sub_diag.
    + destruct (IH _ H) as [Hj Hl]. split; [cbn [length]; lia|].
      replace (Z.to_nat (j - i)) with (S (Z.to_nat (j - (i + 1)))) by lia.
      exact Hl.
Qed.

Lemma sample_record_fields (i : Z) (item r : pyval) :
  sample_record i item = Returns r →
  ∃ d title,
    r = PDict d ∧ dom d = SAMPLE_FIELDS
    ∧ d !! "number" = Some (PInt i)
    ∧ d !! "title" = Some title ∧ truthy title = true.
Proof.
  unfold sample_record. intros H.
  repeat match type of H with
         | (mbind _ ?c) = _ => destruct c; cbn in H; [|discriminate]
         end.
  injection H as <-. eexists _, _. split; [reflexivity|].
  split; [unfold SAMPLE_FIELDS; rewrite !dom_insert_L, dom_empty_L; set_solver|].
  split; [by simplify_map_eq|]. split; [by simplify_map_eq|].
  unfold py_or. by destruct (truthy a) eqn:E.
Qed.

Lemma sample_record_returns (i : Z) (item : pyval) :
  is_dict item = true → artists_shaped item = true →
  ∃ r, sample_record i item = Returns r.
Proof.
  destruct item as [| | | | |d]; try discriminate. intros _ Ha.
  unfold sample_record. cbn [Py.get mbind outcome_bind].
  destruct (artist_names_returns d Ha) as [names ->]. cbn. eauto.
Qed.

End Validation.

(** X18: [/ytm/validate] with a session and an upstream list: an empty list is
    reported as "no history yet"; otherwise the sample is built from the
    first five rows, one record per row that is a dict, numbered by the
    position of the row (rows that are not dicts leave gaps), each with
    exactly the fields number, title, artists, played and a title that is
    never empty.  The sample is returned whenever the artists of the kept
    rows can be iterated. *)
Theorem validate_sample (P : platform) (cfg : Settings) (w w' : world)
    (yt : ytmusic) (rows : list pyval) :
  _make_yt P w = (Returns (Some yt), w') →
  yt_get_history yt = Returns (PList rows) →
  let kept :=
    filter (λ p, is_dict p.2 = true) (numbered 1 (take 5 rows)) in
  let sample := mapM (λ p, sample_record p.1 p.2) kept in
  (validate_connection P (Some (ytm_client_token cfg)) cfg w).1
  = match rows with
    | [] => Returns (simple_response false NO_HISTORY_YET None)
    | _ => records ← sample;
           mret (simple_response true "Connection validated"
                   (Some (PList records)))
    end
  ∧ (∀ records, sample = Returns records →
       (length records ≤ 5)%nat
       ∧ Forall (λ r, ∃ d j item title,
                   r = PDict d ∧ dom d = SAMPLE_FIELDS
                   ∧ d !! "number" = Some (PInt j)
                   ∧ rows !! Z.to_nat (j - 1) = Some item
                   ∧ is_dict item = true
                   ∧ d !! "title" = Some title ∧ truthy title = true)
           records)
  ∧ (Forall (λ x, artists_shaped x = true) (take 5 rows) →
     ∃ records, sample = Returns records).
Proof.
  intros Hyt Hrows kept sample. split; [|split].
  - rewrite validate_connection_run, Hyt. cbn [fst].
    unfold _try_history. rewrite Hrows. cbn [try_except].
    destruct rows as [|row rows']; [reflexivity|].
    change (truthy (PList (row :: rows'))) with true. cbv iota.
    change (slice_to (row :: rows') 5) with (take 5 (row :: rows')).
    rewrite format_sample_mapM. fold kept. fold sample.
    by destruct sample.
  - intros records Hrec. apply mapM_returns in Hrec. split.
    + rewrite <- (Forall2_length _ _ _ Hrec). unfold kept.
      pose proof (length_filter (λ p : Z * pyval, is_dict p.2 = true)
                    (numbered 1 (take 5 rows))) as Hf.
      assert (Hn : ∀ i l, length (numbered i l) = length l).
      { intros i l. revert i. induction l; intros i; cbn; [done|].
        by rewrite IHl. }
      rewrite Hn, length_take in Hf. lia.
    + assert (Hkept : Forall (λ p, (p.1, p.2) ∈ numbered 1 (take 5 rows)
                                   ∧ is_dict p.2 = true) kept).
      { apply Forall_forall. intros [j x] Hp.
        apply list_elem_of_filter in Hp as [Hd Hin]. done. }
      clear -Hrec Hkept.
      induction Hrec as [|[j item] r kept' recs Hr _ IH]; [constructor|].
      apply Forall_cons in Hkept as [[Hin Hd] Hkept].
      constructor; [|by apply IH].
      destruct (sample_record_fields j item r Hr)
        as (d & title & -> & Hdom & Hnum & Htitle & Htruthy).
      destruct (numbered_spec 1 j _ item Hin) as [_ Hlook].
      apply lookup_take_Some in Hlook as [Hlook _].
      exists d, j, item, title. done.
  - intros Hshape. unfold sample, kept.
    assert (Hall : Forall (λ p : Z * pyval, artists_shaped p.2 = true)
                     (numbered 1 (take 5 rows))).
    { generalize 1. induction Hshape as [|x l Hx _ IH]; intros i;
        cbn [numbered]; constructor; [exact Hx | apply IH]. }
    clear Hshape. induction Hall as [|[j x] l Hx _ [records IH]];
      [by exists []|].
    destruct (is_dict x) eqn:Hd.
    + rewrite filter_cons_True by done. rewrite mapM_cons, IH.
      destruct (sample_record_returns j x Hd Hx) as [r Hr].
      cbn [fst snd]. rewrite Hr. cbn. eauto.
    + rewrite filter_cons_False by (cbn; rewrite Hd; discriminate). eauto.
Qed.

Lemma validate_sample_witness :
  let P := Sample.platform_of Sample.listener in
  let w := Sample.holding (Sample.doc_account "0") in
  ∃ r1 r3,
    sample_record 1 Sample.track_full = Returns r1
    ∧ sample_record 3 Sample.track_bare = Returns r3
    ∧ (validate_connection P (Some "dev-token") settings w).1
      = Returns (simple_response true "Connection validated"
                   (Some (PList [r1; r3]))).
Proof.
  intros P w.
  destruct (validate_sample P settings w (_make_yt P w).2 Sample.listener
              Sample.rows ltac:(vm_compute; reflexivity) eq_refl)
    as (Hreply & _).
  eexists _, _. split; [reflexivity|]. split; [reflexivity|]. exact Hreply.
Defined.

(** X19: the artist list of a record, for every shape of the upstream entry: a
    list contributes the [name] of each of its dicts, in order, [None]
    standing for a missing name, and skips what is not a dict; a text or a
    dict contributes nothing; a falsy value is replaced by the empty list;
    any other value cannot be iterated, and an entry that is not a dict has
    no [get]. *)
Theorem artist_names_cases (item : pyval) :
  artist_names item
  = match item with
    | PDict d =>
        match default PNone (d !! "artists") with
        | PList members => Returns (PList (omap name_of members))
        | PStr _ | PDict _ => Returns (PList [])
        | v => if truthy v then Raises TypeError else Returns (PList [])
        end
    | _ => Raises AttributeError
    end.
Proof.
  destruct item as [| | | | |d]; try reflexivity.
  unfold artist_names. cbn [Py.get mbind outcome_bind].
  assert (Hlist : ∀ members,
    (mapM (λ a, Py.get a "name" PNone)
       (filter (λ a, is_dict a = true) members) ≫= λ names,
       mret (PList names))
    = Returns (PList (omap name_of members))).
  { intros members.
    assert (mapM (λ a, Py.get a "name" PNone)
              (filter (λ a, is_dict a = true) members)
            = Returns (omap name_of members)) as ->; [|reflexivity].
    induction members as [|x members IH]; [reflexivity|].
    destruct x as [| | | | |m];
      try (rewrite filter_cons_False by (cbn; discriminate); exact IH).
    rewrite filter_cons_True by done. rewrite mapM_cons, IH. reflexivity. }
  assert (Hnone : ∀ members, Forall (λ a, is_dict a = false) members →
    omap name_of members = []).
  { induction 1 as [|x l Hx _ IH]; [reflexivity|].
    destruct x; try discriminate; exact IH. }
  destruct (default PNone (d !! "artists")) as [|b|n|s|l|m]; unfold py_or.
  - reflexivity.
  - by destruct b.
  - cbn [truthy]. by destruct (n =? 0).
  - cbn [truthy]. destruct (String.eqb s ""); cbn [negb Py.iter outcome_bind];
      [reflexivity|].
    refine (eq_trans (Hlist (chars s)) _). rewrite Hnone; [reflexivity|].
    unfold chars. apply Forall_fmap, Forall_true. done.
  - cbn [truthy]. case_bool_decide as Hl; cbn [negb Py.iter outcome_bind].
    + subst l. reflexivity.
    + exact (Hlist l).
  - cbn [truthy]. case_bool_decide; cbn [negb Py.iter outcome_bind];
      [reflexivity|].
    refine (eq_trans (Hlist _) _). rewrite Hnone; [reflexivity|].
    apply Forall_fmap, Forall_true. done.
Qed.

Section Degenerate.
Context (P : platform).

(** X20: a session that is absent or is the empty text is no session: with the
    valid token, validate answers 200 with [ok = false], and history,
    library and search answer 404, the client never being built; the
    value stays cached. *)
Theorem falsy_handle_not_connected (r : option string) (cfg : Settings)
    (limit : Z) (query : string) (w w' : world) :
  _get_cached_auth_string P w = (Returns r, w') →
  r = None ∨ r = Some "" →
  let token := Some (ytm_client_token cfg) in
  let missing := (Raises (HTTPException 404 NOT_CONNECTED), w') in
  validate_connection P token cfg w
    = (Returns (simple_response false NOT_CONNECTED_YET None), w')
  ∧ get_history P limit token cfg w = missing
  ∧ get_library P token cfg w = missing
  ∧ search_music P query token cfg w = missing
  ∧ lru w' = Some r.
Proof.
  intros Hread Hr token missing. subst token missing.
  assert (Hyt : _make_yt P w = (Returns None, w')).
  { rewrite make_yt_run, Hread. by destruct Hr as [-> | ->]. }
  rewrite validate_connection_run, get_history_run, get_library_run,
    search_music_run, Hyt.
  split; [reflexivity|]. split; [reflexivity|]. split; [reflexivity|].
  split; [reflexivity|].
  unfold _get_cached_auth_string in Hread.
  destruct (lru w) as [r0|] eqn:Hlru.
  - injection Hread as <- <-. exact Hlru.
  - destruct (_get_cached_auth_string__wrapped P w) as [[r0|e] w0];
      [|discriminate].
    by injection Hread as <- <-.
Qed.

(** X25: the constructor of the client runs outside every [try].  When
    the session is a handle and [YTMusic(auth)] raises, the exception
    leaves all four query routes, validate and history included, whose
    [_try_history] guards the upstream call only; the handle stays
    cached, so that the next request runs the constructor again. *)
Theorem constructor_failure_escapes (a : string) (e : exn) (cfg : Settings)
    (limit : Z) (query : string) (w w' : world) :
  _get_cached_auth_string P w = (Returns (Some a), w') →
  a ≠ "" →
  YTMusic P a = Raises e →
  let token := Some (ytm_client_token cfg) in
  validate_connection P token cfg w = (Raises e, w')
  ∧ get_history P limit token cfg w = (Raises e, w')
  ∧ get_library P token cfg w = (Raises e, w')
  ∧ search_music P query token cfg w = (Raises e, w')
  ∧ _make_yt P w' = (Raises e, w').
Proof.
  intros Hread Ha Hyt token. subst token.
  assert (Hne : String.eqb a "" = false) by by apply String.eqb_neq.
  assert (Hmake : _make_yt P w = (Raises e, w')).
  { by rewrite make_yt_run, Hread, Hne, Hyt. }
  rewrite validate_connection_run, get_history_run, get_library_run,
    search_music_run, Hmake.
  split; [reflexivity|]. split; [reflexivity|]. split; [reflexivity|].
  split; [reflexivity|].
  assert (Hslot : lru w' = Some (Some a)).
  { unfold _get_cached_auth_string in Hread.
    destruct (lru w) as [r0|] eqn:Hlru.
    - injection Hread as -> <-. exact Hlru.
    - destruct (_get_cached_auth_string__wrapped P w) as [[r0|e0] w0];
        [|discriminate].
      by injection Hread as -> <-. }
  by rewrite make_yt_run, (cached_hit P _ _ Hslot), Hne, Hyt.
Qed.

(** X21: what the file holds when it is not a credential document.  A falsy
    value (null, 0, an empty text, list or object, or a text that does not
    parse) gives no session, and that answer is cached.  A truthy value
    that is not an object makes the derivation raise [AttributeError];
    nothing is cached, so that every request reads the file again, and
    the query routes answer 500. *)
Theorem non_document_on_disk (cfg : Settings) (limit : Z) (query : string)
    (w : world) :
  lru w = None →
  is_dict (stored P (disk w)) = false ∨ truthy (stored P (disk w)) = false →
  let token := Some (ytm_client_token cfg) in
  if truthy (stored P (disk w)) then
    _get_cached_auth_string P w = (Raises AttributeError, w)
    ∧ validate_connection P token cfg w = (Raises AttributeError, w)
    ∧ get_history P limit token cfg w = (Raises AttributeError, w)
    ∧ get_library P token cfg w = (Raises AttributeError, w)
    ∧ search_music P query token cfg w = (Raises AttributeError, w)
    ∧ status (Raises (A:=pyval) AttributeError) = 500
  else
    _get_cached_auth_string P w = (Returns None, with_lru (Some None) w).
Proof.
  intros Hlru Hshape token. subst token.
  assert (Hwrapped : _get_cached_auth_string__wrapped P w
            = (if truthy (stored P (disk w)) then Raises AttributeError
               else Returns None, w)).
  { unfold _get_cached_auth_string__wrapped.
    unfold mbind at 1, M_bind at 1. rewrite load_headers_run.
    destruct (truthy (stored P (disk w))) eqn:Ht; [|reflexivity].
    destruct Hshape as [Hd|]; [|discriminate].
    destruct (stored P (disk w)); try discriminate; reflexivity. }
  assert (Hread : _get_cached_auth_string P w
            = if truthy (stored P (disk w)) then (Raises AttributeError, w)
              else (Returns None, with_lru (Some None) w)).
  { unfold _get_cached_auth_string. rewrite Hlru, Hwrapped.
    by destruct (truthy _). }
  destruct (truthy (stored P (disk w))); [|exact Hread].
  rewrite validate_connection_run, get_history_run, get_library_run,
    search_music_run, make_yt_run, Hread. done.
Qed.

(** X22: library and search never answer a falsy body other than the empty
    list: whatever the token, the state and the upstream client, a
    returned body is truthy or is [[]]. *)
Theorem library_search_or_empty (token : option string) (cfg : Settings)
    (query : string) (w : world) (v : pyval) :
  (get_library P token cfg w).1 = Returns v
  ∨ (search_music P query token cfg w).1 = Returns v →
  truthy v = true ∨ v = PList [].
Proof.
  assert (Hor : ∀ c : outcome pyval,
    (x ← c; mret (py_or x (PList []))) = Returns v →
    truthy v = true ∨ v = PList []).
  { intros [x|e]; [|discriminate]. cbn. unfold py_or.
    destruct (truthy x) eqn:Hx; intros [= <-]; auto. }
  destruct (decide (token = Some (ytm_client_token cfg))) as [->|Hne].
  - rewrite get_library_run, search_music_run.
    destruct (_make_yt P w) as [[[yt|]|e] w']; cbn [fst];
      intros [H|H]; try discriminate H.
    + destruct (yt_get_library_playlists yt) as [x|e]; [|discriminate].
      cbn in H. apply (Hor (Returns x)). exact H.
    + destruct (yt_search yt query "songs" 20) as [x|e]; [|discriminate].
      cbn in H. apply (Hor (Returns x)). exact H.
  - unfold get_library, search_music. rewrite !verify_token_refuses by done.
    intros [H|H]; discriminate H.
Qed.

End Degenerate.

Section Invariant.
Context (P : platform).


End Invariant.

(** ** Concrete runs *)


Lemma stale_handle_after_broken_write_witness :
  let P := Sample.platform_of Sample.listener in
  let handle := Sample.raw_account "0" in
  let w := cramped 16 (caching (Some handle)
                         (Sample.holding (Sample.doc_account "0"))) in
  let text := json_dump P (HeaderIngest_dict (Sample.doc_account "1")) in
  (coherent P w
   ∧ json_load P (String.substring 0 16 text) = Raises JSONDecodeError)
  ∧ ∃ w',
      ingest_headers P (Sample.doc_account "1") (Some "dev-token") settings w
      = (Raises (HTTPException 500 "Failed to save headers"), w')
      ∧ load_headers P w' = (Returns PNone, w')
      ∧ _get_cached_auth_string P w' = (Returns (Some handle), w')
      ∧ ¬ coherent P w'.
Proof.
  intros P handle w text. split.
  - split; [|vm_compute; reflexivity].
    intros r Hr. injection Hr as <-. vm_compute. reflexivity.
  - exact (stale_handle_after_broken_write P (Sample.doc_account "1") settings
             w handle JSONDecodeError eq_refl eq_refl
             ltac:(vm_compute; reflexivity) ltac:(vm_compute; reflexivity)).
Defined.

Lemma ingest_then_session_witness :
  let P := Sample.platform_of Sample.listener in
  let doc := Sample.doc_account "1" in
  let w := caching None Sample.fresh in
  let w1 := (ingest_headers P doc (Some "dev-token") settings w).2 in
  (takes_write (disk w) (json_dump P (HeaderIngest_dict doc)) = true
   ∧ codec_faithful P (HeaderIngest_dict doc))
  ∧ on_disk P doc w1
  ∧ _get_cached_auth_string P w1
    = (Returns (Some (Sample.raw_account "1")),
       with_lru (Some (Some (Sample.raw_account "1"))) w1).
Proof.
  intros P doc w w1.
  assert (Hw : takes_write (disk w) (json_dump P (HeaderIngest_dict doc))
               = true) by (vm_compute; reflexivity).
  assert (Hc : codec_faithful P (HeaderIngest_dict doc))
    by (vm_compute; reflexivity).
  split; [split; [exact Hw | exact Hc]|].
  destruct (ingest_then_session P doc settings w Hw Hc) as [Hdoc Hread].
  split; [exact Hdoc|].
  assert (Hs : session_of P doc = Returns (Some (Sample.raw_account "1")))
    by (vm_compute; reflexivity).
  rewrite Hs in Hread. exact Hread.
Defined.

Lemma last_ingest_wins_witness :
  let P := Sample.platform_of Sample.listener in
  let doc1 := Sample.doc_account "0" in
  let doc2 := Sample.doc_account "1" in
  (takes_write (disk Sample.fresh) (json_dump P (HeaderIngest_dict doc1))
   = true
   ∧ takes_write (disk Sample.fresh) (json_dump P (HeaderIngest_dict doc2))
     = true
   ∧ codec_faithful P (HeaderIngest_dict doc2))
  ∧ ∃ w1 w2,
      ingest_headers P doc1 (Some "dev-token") settings Sample.fresh
      = (Returns (PStr "OK"), w1)
      ∧ ingest_headers P doc2 (Some "dev-token") settings w1
        = (Returns (PStr "OK"), w2)
      ∧ load_headers P w2 = (Returns (HeaderIngest_dict doc2), w2)
      ∧ (_get_cached_auth_string P w2).1
        = Returns (Some (Sample.raw_account "1")).
Proof.
  intros P doc1 doc2.
  assert (Hw1 : takes_write (disk Sample.fresh)
                  (json_dump P (HeaderIngest_dict doc1)) = true)
    by (vm_compute; reflexivity).
  assert (Hw2 : takes_write (disk Sample.fresh)
                  (json_dump P (HeaderIngest_dict doc2)) = true)
    by (vm_compute; reflexivity).
  assert (Hc : codec_faithful P (HeaderIngest_dict doc2))
    by (vm_compute; reflexivity).
  split; [split; [exact Hw1 | split; [exact Hw2 | exact Hc]]|].
  destruct (last_ingest_wins P doc1 doc2 settings Sample.fresh Hw1 Hw2 Hc)
    as (w1 & w2 & H1 & H2 & H3 & H4).
  exists w1, w2. split; [exact H1|]. split; [exact H2|]. split; [exact H3|].
  rewrite H4. vm_compute. reflexivity.
Defined.

Lemma queries_keep_coherence_witness :
  let P := Sample.platform_of Sample.listener in
  let w := caching (Some (Sample.raw_account "0"))
             (Sample.holding (Sample.doc_account "0")) in
  coherent P w
  ∧ coherent P (get_history P 50 (Some "dev-token") settings w).2
  ∧ coherent P (search_music P "lofi" None settings w).2.
Proof.
  intros P w.
  assert (Hco : coherent P w).
  { intros r Hr. injection Hr as <-. vm_compute. reflexivity. }
  split; [exact Hco|].
  split.
  - exact (proj1 (proj2 (queries_keep_coherence P (Some "dev-token") settings
                           50 "lofi" w Hco))).
  - exact (proj2 (proj2 (proj2 (queries_keep_coherence P None settings
                                  50 "lofi" w Hco)))).
Defined.

Lemma cache_insulates_from_disk_witness :
  let P := Sample.platform_of Sample.listener in
  let w := Sample.holding (Sample.doc_account "0") in
  let w' := caching (Some (Sample.raw_account "0")) w in
  let gone := disk Sample.fresh in
  _get_cached_auth_string P w = (Returns (Some (Sample.raw_account "0")), w')
  ∧ _get_cached_auth_string P (with_disk gone w')
    = (Returns (Some (Sample.raw_account "0")), with_disk gone w')
  ∧ (_get_cached_auth_string P (cache_clear (with_disk gone w')).2).1
    = (_get_cached_auth_string__wrapped P (with_disk gone w')).1.
Proof.
  intros P w w' gone.
  assert (Hread : _get_cached_auth_string P w
                  = (Returns (Some (Sample.raw_account "0")), w'))
    by (vm_compute; reflexivity).
  split; [exact Hread|].
  exact (cache_insulates_from_disk P (Some (Sample.raw_account "0")) w w' gone
           Hread).
Defined.

Lemma falsy_handle_not_connected_witness :
  let P := mute (Sample.platform_of Sample.listener) in
  let w := Sample.holding Sample.doc_authorization in
  let w' := caching (Some "") w in
  _get_cached_auth_string P w = (Returns (Some ""), w')
  ∧ validate_connection P (Some "dev-token") settings w
    = (Returns (simple_response false NOT_CONNECTED_YET None), w')
  ∧ get_history P 50 (Some "dev-token") settings w
    = (Raises (HTTPException 404 NOT_CONNECTED), w').
Proof.
  intros P w w'.
  assert (Hread : _get_cached_auth_string P w = (Returns (Some ""), w'))
    by (vm_compute; reflexivity).
  split; [exact Hread|].
  destruct (falsy_handle_not_connected P (Some "") settings 50 "lofi" w w'
              Hread (or_intror eq_refl)) as (Hv & Hh & _).
  split; [exact Hv | exact Hh].
Defined.

Lemma constructor_failure_escapes_witness :
  let P := stalled (Sample.platform_of Sample.listener) in
  let w := Sample.holding (Sample.doc_account "0") in
  let w' := caching (Some (Sample.raw_account "0")) w in
  let e := ClientError "connection refused" in
  _get_cached_auth_string P w = (Returns (Some (Sample.raw_account "0")), w')
  ∧ validate_connection P (Some "dev-token") settings w = (Raises e, w')
  ∧ get_history P 50 (Some "dev-token") settings w = (Raises e, w').
Proof.
  intros P w w' e.
  assert (Hread : _get_cached_auth_string P w
                  = (Returns (Some (Sample.raw_account "0")), w'))
    by (vm_compute; reflexivity).
  split; [exact Hread|].
  destruct (constructor_failure_escapes P (Sample.raw_account "0") e settings
              50 "lofi" w w' Hread ltac:(discriminate) eq_refl)
    as (Hv & Hh & _).
  split; [exact Hv | exact Hh].
Defined.

Lemma non_document_on_disk_witness :
  let P := Sample.platform_of Sample.listener in
  let w := Sample.holding_text "[1]" in
  lru w = None
  ∧ is_dict (stored P (disk w)) = false
  ∧ truthy (stored P (disk w)) = true
  ∧ _get_cached_auth_string P w = (Raises AttributeError, w)
  ∧ get_history P 50 (Some "dev-token") settings w
    = (Raises AttributeError, w).
Proof.
  intros P w.
  assert (Hd : is_dict (stored P (disk w)) = false)
    by (vm_compute; reflexivity).
  assert (Ht : truthy (stored P (disk w)) = true)
    by (vm_compute; reflexivity).
  pose proof (non_document_on_disk P settings 50 "lofi" w eq_refl
                (or_introl Hd)) as H.
  cbv zeta in H. rewrite Ht in H. destruct H as (Hr & _ & Hh & _).
  split; [reflexivity|]. split; [exact Hd|]. split; [exact Ht|].
  split; [exact Hr | exact Hh].
Defined.

Lemma library_search_or_empty_witness :
  let P := Sample.platform_of Sample.listener in
  let w := Sample.holding (Sample.doc_account "0") in
  (get_library P (Some "dev-token") settings w).1 = Returns (PList [])
  ∧ (truthy (PList []) = true ∨ PList [] = PList []).
Proof.
  intros P w.
  assert (Hl : (get_library P (Some "dev-token") settings w).1
               = Returns (PList []))
    by (vm_compute; reflexivity).
  split; [exact Hl|].
  exact (library_search_or_empty P (Some "dev-token") settings "lofi" w
           (PList []) (or_introl Hl)).
Defined.


End YtmRoutesFacts.
